(** * Frescobaldi, [open_file_at_cursor.py]: include-file resolution

    A shallow embedding of the module that resolves the file names written
    after [\include] (or loaded from Scheme) into paths on disk, in its three
    variants: [includeTarget], [genToolTipInfo] and [filenames_at_cursor],
    followed by the two entry points that open the resolved files.

    Python strings are [string], a character standing for one code point
    (those below 256); Python lists are [list]; the host document
    is a list of block texts with Qt's position arithmetic; [os.path] and the
    file system are a record of capabilities, with a POSIX instance used for
    the concrete examples. *)

From Stdlib Require Import String Ascii List Arith Bool Lia Sorted.
Import ListNotations.
Open Scope string_scope.
Open Scope list_scope.
Open Scope nat_scope.

(** ** Python string and list primitives used by the module *)

Module PyStr.

(** Truthiness of a list: [not fnames] is [true] exactly on the empty list. *)
Definition py_not {A : Type} (l : list A) : bool :=
  match l with [] => true | _ :: _ => false end.

(** [a or b] on lists: [a] when it is non-empty, otherwise [b]. *)
Definition py_or {A : Type} (a b : list A) : list A :=
  if py_not a then b else a.

(** The white space of Python 3 ([str.isspace]) among the code points below
    256, a character standing for one code point: U+0009 to U+000D, U+001C
    to U+0020, U+0085 and U+00A0. *)
Definition is_space (c : ascii) : bool :=
  let n := nat_of_ascii c in
  ((9 <=? n) && (n <=? 13)) || ((28 <=? n) && (n <=? 32))
  || (n =? 133) || (n =? 160).

Fixpoint lstrip (s : string) : string :=
  match s with
  | EmptyString => EmptyString
  | String c s' => if is_space c then lstrip s' else s
  end.

(** [rstrip] drops the trailing white space: a character is kept when it is
    not white space or when something is kept after it. *)
Fixpoint rstrip (s : string) : string :=
  match s with
  | EmptyString => EmptyString
  | String c s' =>
      match rstrip s' with
      | EmptyString => if is_space c then EmptyString else String c EmptyString
      | r => String c r
      end
  end.

(** [str.strip()] on a text whose code points are all below 256. *)
Definition strip (s : string) : string := rstrip (lstrip s).

Definition newline : ascii := "010"%char.

(** [c in s] for a one-character needle. *)
Definition char_in (c : ascii) (s : string) : bool :=
  existsb (Ascii.eqb c) (list_ascii_of_string s).

(** ASCII case folding, as used by a case-insensitive text search. *)
Definition lower_char (c : ascii) : ascii :=
  let n := nat_of_ascii c in
  if (65 <=? n) && (n <=? 90) then ascii_of_nat (n + 32) else c.

Fixpoint lower (s : string) : string :=
  match s with
  | EmptyString => EmptyString
  | String c s' => String (lower_char c) (lower s')
  end.

End PyStr.

(** ** The library under the module: [os], [os.path] and [str.strip]

    The module only calls [os.path.dirname], [os.path.join],
    [os.path.normpath], [os.path.exists], [os.path.isdir],
    [os.access(_, os.R_OK)] and, on the selected text, [str.strip()].  They
    are taken as a record so that every theorem holds for any platform, any
    state of the disk and the white space of the whole of Unicode. *)

Record OS : Type := {
  dirname  : string -> string;
  join     : string -> string -> string;
  normpath : string -> string;
  exists_  : string -> bool;
  isdir    : string -> bool;
  access_R_OK : string -> bool;
  str_strip : string -> string
}.

(** A POSIX instance of [OS], following [posixpath.py], over a disk given by
    the lists of its regular files and of its directories. *)

Module Posix.

Definition slash : ascii := "/"%char.

Definition startswith_slash (s : string) : bool :=
  match s with String c _ => Ascii.eqb c slash | EmptyString => false end.

Fixpoint endswith_slash (s : string) : bool :=
  match s with
  | EmptyString => false
  | String c EmptyString => Ascii.eqb c slash
  | String _ s' => endswith_slash s'
  end.

(** [posixpath.join(a, b)]. *)
Definition join (a b : string) : string :=
  if startswith_slash b then b
  else if (String.length a =? 0) || endswith_slash a then String.append a b
  else String.append a (String slash b).

Fixpoint split (s : string) : list string :=
  match s with
  | EmptyString => [EmptyString]
  | String c s' =>
      if Ascii.eqb c slash then EmptyString :: split s'
      else match split s' with
           | [] => [String c EmptyString]
           | h :: t => String c h :: t
           end
  end.

(** One turn of the loop of [normpath]; [rev_comps] is [new_comps]
    reversed, so that its head is [new_comps[-1]]. *)
Definition norm_step (absolute : bool) (rev_comps : list string)
           (comp : string) : list string :=
  if String.eqb comp "" || String.eqb comp "." then rev_comps
  else if negb (String.eqb comp "..")
          || (negb absolute && PyStr.py_not rev_comps)
          || match rev_comps with
             | last :: _ => String.eqb last ".."
             | [] => false
             end
       then comp :: rev_comps
       else match rev_comps with
            | _ :: popped => popped
            | [] => rev_comps
            end.

Definition initial_slashes (path : string) : nat :=
  match path with
  | String a (String b (String c _)) =>
      if Ascii.eqb a slash
      then if Ascii.eqb b slash && negb (Ascii.eqb c slash) then 2 else 1
      else 0
  | String a (String b EmptyString) =>
      if Ascii.eqb a slash then if Ascii.eqb b slash then 2 else 1 else 0
  | String a EmptyString => if Ascii.eqb a slash then 1 else 0
  | EmptyString => 0
  end.

Fixpoint slashes (n : nat) : string :=
  match n with 0 => EmptyString | S k => String slash (slashes k) end.

(** [posixpath.normpath(path)]. *)
Definition normpath (path : string) : string :=
  if String.length path =? 0 then "."
  else
    let n := initial_slashes path in
    let comps :=
      rev (fold_left (norm_step (negb (n =? 0))) (split path) []) in
    let joined := String.append (slashes n) (String.concat "/" comps) in
    if String.length joined =? 0 then "." else joined.

(** The part of [p] up to and including its last slash ([p[:i]] with
    [i = p.rfind('/') + 1]). *)
Fixpoint head_to_last_slash (p : string) : string :=
  match p with
  | EmptyString => EmptyString
  | String c p' =>
      match head_to_last_slash p' with
      | EmptyString =>
          if Ascii.eqb c slash then String c EmptyString else EmptyString
      | h => String c h
      end
  end.

Fixpoint all_slashes (s : string) : bool :=
  match s with
  | EmptyString => true
  | String c s' => Ascii.eqb c slash && all_slashes s'
  end.

Fixpoint rstrip_slash (s : string) : string :=
  match s with
  | EmptyString => EmptyString
  | String c s' =>
      match rstrip_slash s' with
      | EmptyString =>
          if Ascii.eqb c slash then EmptyString else String c EmptyString
      | r => String c r
      end
  end.

(** [posixpath.dirname(p)]. *)
Definition dirname (p : string) : string :=
  let head := head_to_last_slash p in
  if negb (String.length head =? 0) && negb (all_slashes head)
  then rstrip_slash head else head.

Record Disk : Type := { files : list string; dirs : list string }.

Definition mem (p : string) (l : list string) : bool :=
  existsb (String.eqb p) l.

End Posix.

(** Every entry of the disk is taken to be readable; [str.strip] is that of
    texts whose code points are below 256. *)
Definition posix_os (d : Posix.Disk) : OS := {|
  dirname := Posix.dirname;
  join := Posix.join;
  normpath := Posix.normpath;
  exists_ := fun p => Posix.mem p (Posix.files d) || Posix.mem p (Posix.dirs d);
  isdir := fun p => Posix.mem p (Posix.dirs d);
  access_R_OK := fun p => Posix.mem p (Posix.files d) || Posix.mem p (Posix.dirs d);
  str_strip := PyStr.strip
|}.

(** ** The host document: blocks, positions, cursors

    A [QTextDocument] is a sequence of blocks (lines).  A block occupies the
    positions of its text plus one for the paragraph separator that follows
    it, so [length] is the text length plus one and the next block starts at
    [position + length]. *)

Record Block : Type := {
  position    : nat;
  blockNumber : nat;
  text        : string
}.

Definition block_length (b : Block) : nat := String.length (text b) + 1.

Record Document : Type := {
  toLocalFile : string;        (* [url().toLocalFile()], empty when unsaved *)
  lines       : list string    (* the texts of the blocks, in order *)
}.

Fixpoint layout (pos num : nat) (texts : list string) : list Block :=
  match texts with
  | [] => []
  | t :: ts =>
      {| position := pos; blockNumber := num; text := t |}
        :: layout (pos + String.length t + 1) (S num) ts
  end.

Definition blocks (doc : Document) : list Block := layout 0 0 (lines doc).

(** What Qt hands out when no block holds the position asked for. *)
Definition invalid_block : Block :=
  {| position := 0; blockNumber := 0; text := "" |}.

Fixpoint findBlock_in (pos : nat) (bs : list Block) : Block :=
  match bs with
  | [] => invalid_block
  | b :: rest =>
      if (position b <=? pos) && (pos <? position b + block_length b)
      then b else findBlock_in pos rest
  end.

Definition findBlock (doc : Document) (pos : nat) : Block :=
  findBlock_in pos (blocks doc).

Definition toPlainText (doc : Document) : string :=
  String.concat (String PyStr.newline EmptyString) (lines doc).

(** The literal searched by the document scan.  In Python ['\include'] is a
    backslash followed by [include], since [\i] is no escape sequence. *)
Definition include_marker : string := "\include".

(** [QTextDocument.find] with default flags compares case-insensitively. *)
Definition has_marker_from (offset : nat) (t : string) : bool :=
  match String.index offset (PyStr.lower include_marker) (PyStr.lower t) with
  | Some _ => true
  | None => false
  end.

(** [document.find('\include', from)]: the search starts in the block
    holding [from], at offset [from - position], and goes on block by block
    from offset 0.  The result is the block of the cursor returned ([None]
    for the null cursor); a match never spans two blocks. *)
Fixpoint find_in (from : nat) (bs : list Block) : option Block :=
  match bs with
  | [] => None
  | b :: rest =>
      if (from <? position b + block_length b)
         && has_marker_from (from - position b) (text b)
      then Some b else find_in from rest
  end.

Definition find (doc : Document) (from : nat) : option Block :=
  find_in from (blocks doc).

(** A [QTextCursor]: the document it belongs to, anchor and position. *)
Record Cursor : Type := {
  document        : Document;
  anchor          : nat;
  cursor_position : nat
}.

Definition selectionStart (c : Cursor) : nat := Nat.min (anchor c) (cursor_position c).
Definition selectionEnd (c : Cursor) : nat := Nat.max (anchor c) (cursor_position c).
Definition hasSelection (c : Cursor) : bool := negb (anchor c =? cursor_position c).

(** [cursor.block()] *)
Definition cursor_block (c : Cursor) : Block :=
  findBlock (document c) (cursor_position c).

(** [cursor.selection().toPlainText()] *)
Definition selection_text (c : Cursor) : string :=
  String.substring (selectionStart c) (selectionEnd c - selectionStart c)
                   (toPlainText (document c)).

(** ** The lexer collaborator, [documentinfo.info(document)]

    [include_args] and [scheme_load_args] are those of
    [lydocinfo().range(start, end)]. *)

Record DocInfo : Type := {
  includepath      : list string;
  include_args     : nat -> nat -> list string;
  scheme_load_args : nat -> nat -> list string
}.

Definition range_args (dinfo : DocInfo) (start end_ : nat) : list string :=
  PyStr.py_or (include_args dinfo start end_) (scheme_load_args dinfo start end_).

(** The search path: the document's directory when it has a file name, then
    the include path of the document. *)
Definition search_path (os : OS) (dinfo : DocInfo) (doc : Document) : list string :=
  (if String.length (toLocalFile doc) =? 0 then []
   else [dirname os (toLocalFile doc)]) ++ includepath dinfo.

Definition candidate (os : OS) (p f : string) : string :=
  normpath os (join os p f).

(** ** The three resolvers *)

(** The result of [includeTarget]: the empty string, or a list. *)
Inductive IncludeTargetResult : Type :=
| EmptyStr
| Targets (targets : list string).

(** One entry of the list built by [genToolTipInfo]: the dict [info], whose
    key ['content'] is absent until it is assigned. *)
Record ToolTipInfo : Type := {
  num     : nat;
  content : option string
}.

Definition invalid_marker : string := "This is an invalid include file".

(** The variables of the [while] loop of [genToolTipInfo]. *)
Record ScanState : Type := {
  startIndex  : nat;
  pointCursor : option Block;          (* [None] is the null cursor *)
  toolTipInfo : list ToolTipInfo
}.

Section Resolvers.

Variable os : OS.
Variable info : Document -> DocInfo.     (* [documentinfo.info] *)

Definition is_file (name : string) : bool :=
  exists_ os name && negb (isdir os name).

(** *** [includeTarget] *)

(** Inner loop, lines 66-70: the [continue] closes the loop body, so every
    directory is tried. *)
Fixpoint includeTarget_dirs (f : string) (path targets : list string)
  : list string :=
  match path with
  | [] => targets
  | p :: rest =>
      let name := candidate os p f in
      includeTarget_dirs f rest
        (if is_file name then targets ++ [name] else targets)
  end.

Definition includeTarget (cursor : Cursor) : IncludeTargetResult :=
  let block := cursor_block cursor in
  let start := position block in
  let end_ := start + String.length (text block) + 1 in
  let dinfo := info (document cursor) in
  let fnames := range_args dinfo start end_ in
  if PyStr.py_not fnames then EmptyStr
  else
    let path := search_path os dinfo (document cursor) in
    Targets (fold_left (fun targets f => includeTarget_dirs f path targets)
                       fnames []).

(** *** [genToolTipInfo] *)

(** Inner loop, lines 121-126, on the pair ([info['content']], [valid]):
    the [break] leaves the loop at the first directory that matches. *)
Fixpoint tooltip_dirs (f : string) (path : list string)
         (st : option string * bool) : option string * bool :=
  match path with
  | [] => st
  | p :: rest =>
      let name := candidate os p f in
      if is_file name then (Some name, true)
      else tooltip_dirs f rest st
  end.

(** Lines 115-128: the dict appended for a block with names [fnames]. *)
Definition tooltip_entry (path : list string) (block : Block)
           (fnames : list string) : ToolTipInfo :=
  let st := fold_left (fun st f => tooltip_dirs f path st) fnames (None, false) in
  {| num := blockNumber block;
     content := if negb (snd st) then Some invalid_marker else fst st |}.

(** One turn of the [while] loop, lines 101-132; [None] when the loop
    condition fails.  On [continue] (line 112) control goes back to the
    loop test with [startIndex] updated and [pointCursor] as it was. *)
Definition scan_step (cursor : Cursor) (path : list string) (st : ScanState)
  : option ScanState :=
  match pointCursor st with
  | None => None
  | Some block =>
      let head := position block in
      let tail := head + block_length block in
      let fnames := range_args (info (document cursor)) head tail in
      if PyStr.py_not fnames
      then Some {| startIndex := tail;
                   pointCursor := pointCursor st;
                   toolTipInfo := toolTipInfo st |}
      else Some {| startIndex := tail;
                   pointCursor := find (document cursor) tail;
                   toolTipInfo :=
                     toolTipInfo st ++ [tooltip_entry path block fnames] |}
  end.

(** The [while] loop, allowed [fuel] turns of its body; [None] when the
    loop condition still holds after them. *)
Fixpoint scan_loop (fuel : nat) (cursor : Cursor) (path : list string)
         (st : ScanState) : option (list ToolTipInfo) :=
  match scan_step cursor path st with
  | None => Some (toolTipInfo st)
  | Some st' =>
      match fuel with
      | 0 => None
      | S k => scan_loop k cursor path st'
      end
  end.

(** The variables of the loop after [n] turns of its body; [None] when the
    loop condition fails before the [n]-th turn. *)
Fixpoint scan_turns (n : nat) (cursor : Cursor) (path : list string)
         (st : ScanState) : option ScanState :=
  match n with
  | 0 => Some st
  | S k =>
      match scan_step cursor path st with
      | Some st' => scan_turns k cursor path st'
      | None => None
      end
  end.

Definition scan_init (cursor : Cursor) : ScanState :=
  {| startIndex := 0;
     pointCursor := find (document cursor) 0;
     toolTipInfo := [] |}.

Definition genToolTipInfo (fuel : nat) (cursor : Cursor)
  : option (list ToolTipInfo) :=
  let dinfo := info (document cursor) in
  let path := search_path os dinfo (document cursor) in
  scan_loop fuel cursor path (scan_init cursor).

(** The first candidate of [f] along [path] that is an existing file, and
    the list of these over the names that have one: the vocabulary in
    which the properties of [genToolTipInfo] are stated. *)
Definition first_file (path : list string) (f : string) : option string :=
  List.find is_file (map (fun p => candidate os p f) path).

Definition resolutions (path fnames : list string) : list string :=
  flat_map (fun f => match first_file path f with
                     | Some name => [name]
                     | None => []
                     end) fnames.

(** The blocks in which the marker occurs, in document order. *)
Definition marker_blocks (doc : Document) : list Block :=
  filter (fun b => has_marker_from 0 (text b)) (blocks doc).

(** The names the lexer gives for the range of a block, and the dict
    appended for a located block that has names. *)
Definition block_names (cursor : Cursor) (b : Block) : list string :=
  range_args (info (document cursor)) (position b) (position b + block_length b).

Definition block_entry (cursor : Cursor) (path : list string) (b : Block)
  : ToolTipInfo :=
  tooltip_entry path b (block_names cursor b).

(** *** [filenames_at_cursor] *)

(** Lines 142-145: the range handed to the lexer. *)
Definition cursor_range (cursor : Cursor) : nat * nat :=
  let start := position (findBlock (document cursor) (selectionStart cursor)) in
  let end_ :=
    if negb (hasSelection cursor)
    then start + String.length (text (cursor_block cursor)) + 1
    else selectionEnd cursor in
  (start, end_).

(** Lines 146-152: the names to resolve. *)
Definition references_at_cursor (cursor : Cursor) : list string :=
  let (start, end_) := cursor_range cursor in
  let dinfo := info (document cursor) in
  let fnames := range_args dinfo start end_ in
  if PyStr.py_not fnames && hasSelection cursor
  then
    let text := selection_text cursor in
    if negb (PyStr.char_in PyStr.newline (str_strip os text))
    then [text] else fnames
  else fnames.

(** Inner loop, lines 166-170, with the names handed to [os.access] in the
    order of the calls.  The second component is the name accepted at the
    [break]; [None] means the loop ran to its end, so its [else] runs. *)
Fixpoint access_dirs (f : string) (path : list string)
  : list string * option string :=
  match path with
  | [] => ([], None)
  | p :: rest =>
      let name := candidate os p f in
      if access_R_OK os name then ([name], Some name)
      else let r := access_dirs f rest in (name :: fst r, snd r)
  end.

(** Lines 166-174 for one name [f]. *)
Definition filenames_for (existing : bool) (directory : string)
           (path : list string) (filenames : list string) (f : string)
  : list string :=
  match snd (access_dirs f path) with
  | Some name => filenames ++ [name]
  | None =>
      if negb existing
      then filenames ++ [candidate os directory f]
      else filenames
  end.

(** Line 156; the search path of lines 157-161 is [search_path]. *)
Definition cursor_directory (cursor : Cursor) : string :=
  dirname os (toLocalFile (document cursor)).

Definition cursor_path (cursor : Cursor) : list string :=
  search_path os (info (document cursor)) (document cursor).

Definition filenames_at_cursor (cursor : Cursor) (existing : bool)
  : list string :=
  fold_left (filenames_for existing (cursor_directory cursor) (cursor_path cursor))
            (references_at_cursor cursor) [].

(** What the name [f] adds to the result: lines 166-174 on an empty list. *)
Definition contribution (cursor : Cursor) (existing : bool) (f : string)
  : list string :=
  filenames_for existing (cursor_directory cursor) (cursor_path cursor) [] f.

(** The calls of [os.access] made by [filenames_at_cursor], in order. *)
Definition probes_at_cursor (cursor : Cursor) : list string :=
  flat_map (fun f => fst (access_dirs f (cursor_path cursor)))
           (references_at_cursor cursor).

End Resolvers.

(** ** Opening the targets

    [open_targets] is called through Python's argument binding: a [def] with
    two required positional parameters accepts exactly two positional
    arguments and raises [TypeError] otherwise, before its body runs.  What
    the host window is asked to do is recorded as a list of events. *)

Inductive Exception : Type :=
| TypeError (message : string)
| AttributeError (message : string)
| ValueError (message : string).

Inductive Outcome (A : Type) : Type :=
| Returned (a : A)
| Raised (e : Exception).
Arguments Returned {A} a.
Arguments Raised {A} e.

(** A handle on a document opened in the window. *)
Definition DocHandle : Type := string.

Record MainWindow : Type := {
  textCursor : Cursor;
  openUrl    : string -> option DocHandle   (* [None] is a falsy result *)
}.

Inductive HostEvent : Type :=
| OpenUrl (path : string)
| SetCurrentDocument (d : DocHandle).

(** The values that reach [open_targets] in this module. *)
Inductive PyObject : Type :=
| PyWindow (w : MainWindow)
| PyStrList (l : list string).

(** What a call returns: [True], or [None] when the body falls off its end. *)
Inductive PyReturn : Type := PyTrue | PyNone.

(** Lines 194-195 on a window and a list. *)
Fixpoint open_each (w : MainWindow) (targets : list string)
         (d : option DocHandle) : option DocHandle * list HostEvent :=
  match targets with
  | [] => (d, [])
  | t :: rest =>
      let r := open_each w rest (openUrl w t) in
      (fst r, OpenUrl t :: snd r)
  end.

(** The body of [open_targets], lines 193-198, on its bound parameters. *)
Definition open_targets_body (mainwindow targets : PyObject)
  : Outcome PyReturn * list HostEvent :=
  match targets with
  | PyWindow _ => (Raised (TypeError "object is not iterable"), [])
  | PyStrList [] => (Returned PyNone, [])
  | PyStrList (t :: rest) =>
      match mainwindow with
      | PyStrList _ =>
          (Raised (AttributeError "'list' object has no attribute 'openUrl'"), [])
      | PyWindow w =>
          let r := open_each w (t :: rest) None in
          match fst r with
          | Some d => (Returned PyTrue, snd r ++ [SetCurrentDocument d])
          | None => (Returned PyNone, snd r)
          end
      end
  end.

(** A call of [open_targets]: the parameters [mainwindow] and [targets] are
    bound from the positional arguments. *)
Definition open_targets (args : list PyObject)
  : Outcome PyReturn * list HostEvent :=
  match args with
  | [mainwindow; targets] => open_targets_body mainwindow targets
  | [] =>
      (Raised (TypeError "open_targets() missing 2 required positional arguments: 'mainwindow' and 'targets'"), [])
  | [_] =>
      (Raised (TypeError "open_targets() missing 1 required positional argument: 'targets'"), [])
  | _ =>
      (Raised (TypeError "open_targets() takes 2 positional arguments but more were given"), [])
  end.


(** ** [filenames_at_cursor] with the exception of [os.access]

    [os.access] raises [ValueError] on a path that holds a NUL character,
    before the disk is looked at; nothing in [filenames_at_cursor] catches
    it.  The other calls of lines 142-175 raise nothing on strings. *)

Definition nul : ascii := "000"%char.






(** ** Fixtures for the concrete examples *)

(** A lexer given by a table: the include arguments found in each range. *)
Definition table_args (table : list (nat * nat * list string))
           (start end_ : nat) : list string :=
  match List.find (fun e => (fst (fst e) =? start) && (snd (fst e) =? end_)) table with
  | Some e => snd e
  | None => []
  end.

Definition table_info (roots : list string)
           (includes loads : list (nat * nat * list string))
           (_ : Document) : DocInfo :=
  {| includepath := roots;
     include_args := table_args includes;
     scheme_load_args := table_args loads |}.

(** The line [\include] followed by the name between double quotes. *)
Definition double_quote : string := String "034"%char EmptyString.

Definition include_line (name : string) : string :=
  String.append "\include "
    (String.append double_quote (String.append name double_quote)).

Definition caret (doc : Document) (pos : nat) : Cursor :=
  {| document := doc; anchor := pos; cursor_position := pos |}.

(** A saved document [/proj/main.ly] whose only line includes [a.ly], with
    [/lib] on the include path; [a.ly] is present in both directories. *)
Module TwoRoots.
Definition doc : Document :=
  {| toLocalFile := "/proj/main.ly"; lines := [include_line "a.ly"] |}.
Definition info : Document -> DocInfo :=
  table_info ["/lib"] [(0, 16, ["a.ly"])] [].
Definition disk : Posix.Disk :=
  {| Posix.files := ["/proj/main.ly"; "/proj/a.ly"; "/lib/a.ly"];
     Posix.dirs := ["/"; "/proj"; "/lib"] |}.
Definition os : OS := posix_os disk.
End TwoRoots.

(** An unsaved document whose only line includes [foo.ly], with [/lib] on
    the include path; no [foo.ly] exists anywhere. *)
Module Unsaved.
Definition doc : Document :=
  {| toLocalFile := ""; lines := [include_line "foo.ly"] |}.
Definition info : Document -> DocInfo :=
  table_info ["/lib"] [(0, 18, ["foo.ly"])] [].
Definition info_no_roots : Document -> DocInfo :=
  table_info [] [(0, 18, ["foo.ly"])] [].
Definition disk : Posix.Disk :=
  {| Posix.files := []; Posix.dirs := ["/"; "/lib"] |}.
Definition os : OS := posix_os disk.
End Unsaved.

(** A saved document [/proj/main.ly] whose only line includes [parts], which
    names a directory next to the document. *)
Module IncludesDirectory.
Definition doc : Document :=
  {| toLocalFile := "/proj/main.ly"; lines := [include_line "parts"] |}.
Definition info : Document -> DocInfo :=
  table_info [] [(0, 17, ["parts"])] [].
Definition disk : Posix.Disk :=
  {| Posix.files := ["/proj/main.ly"; "/proj/parts/violin.ly"];
     Posix.dirs := ["/"; "/proj"; "/proj/parts"] |}.
Definition os : OS := posix_os disk.
End IncludesDirectory.

(** A saved document with a line of plain text in which [foo.ly] is
    selected (positions 4 to 10); the lexer finds no directive. *)
Module PlainSelection.
Definition doc : Document :=
  {| toLocalFile := "/proj/main.ly"; lines := ["see foo.ly here"] |}.
Definition info : Document -> DocInfo := table_info [] [] [].
Definition cursor : Cursor :=
  {| document := doc; anchor := 4; cursor_position := 10 |}.
Definition disk : Posix.Disk :=
  {| Posix.files := ["/proj/main.ly"; "/proj/foo.ly"];
     Posix.dirs := ["/"; "/proj"] |}.
Definition os : OS := posix_os disk.
End PlainSelection.

(** A saved document in which the second line is a bare [\include], as
    while the name is still to be typed: the lexer finds no argument in it.
    The third line includes [a.ly], which exists. *)
Module BareInclude.
Definition doc : Document :=
  {| toLocalFile := "/proj/main.ly";
     lines := ["% header"; "\include"; include_line "a.ly"] |}.
Definition info : Document -> DocInfo :=
  table_info [] [(18, 34, ["a.ly"])] [].
Definition disk : Posix.Disk :=
  {| Posix.files := ["/proj/main.ly"; "/proj/a.ly"];
     Posix.dirs := ["/"; "/proj"] |}.
Definition os : OS := posix_os disk.
End BareInclude.

(** A saved document with two include lines, the first resolvable and the
    second not. *)
Module TwoIncludes.
Definition doc : Document :=
  {| toLocalFile := "/proj/main.ly";
     lines := [include_line "a.ly"; "c4 d e f"; include_line "gone.ly"] |}.
Definition info : Document -> DocInfo :=
  table_info ["/lib"] [(0, 16, ["a.ly"]); (25, 44, ["gone.ly"])] [].
Definition disk : Posix.Disk :=
  {| Posix.files := ["/proj/main.ly"; "/proj/a.ly"];
     Posix.dirs := ["/"; "/proj"; "/lib"] |}.
Definition os : OS := posix_os disk.
End TwoIncludes.

(** A saved document of two lines of plain text, in which the lexer finds
    no directive, with two selections: [around_name] runs from the blank
    before [foo.ly] to the start of the second line, so that it ends with
    the line break; [across_lines] runs from [foo.ly] into the second
    line. *)
Module TrimmedSelection.
Definition doc : Document :=
  {| toLocalFile := "/proj/main.ly"; lines := ["see foo.ly"; "next line"] |}.
Definition info : Document -> DocInfo := table_info [] [] [].
Definition around_name : Cursor :=
  {| document := doc; anchor := 3; cursor_position := 11 |}.
Definition across_lines : Cursor :=
  {| document := doc; anchor := 14; cursor_position := 4 |}.
Definition line_break : string := String PyStr.newline EmptyString.
Definition disk : Posix.Disk :=
  {| Posix.files := ["/proj/main.ly"; "/proj/foo.ly"];
     Posix.dirs := ["/"; "/proj"] |}.
Definition os : OS := posix_os disk.
End TrimmedSelection.

(** A saved document whose line includes a name with a NUL character in
    it; no such file exists. *)
Module NulName.
Definition name : string := String.append "a" (String nul ".ly").
Definition doc : Document :=
  {| toLocalFile := "/proj/main.ly"; lines := [include_line name] |}.
Definition info : Document -> DocInfo :=
  table_info [] [(0, 17, [name])] [].
Definition disk : Posix.Disk :=
  {| Posix.files := ["/proj/main.ly"]; Posix.dirs := ["/"; "/proj"] |}.
Definition os : OS := posix_os disk.
End NulName.

(** * Properties *)

(** ** The POSIX instance agrees with [posixpath] on sample paths *)

Example posix_join_rel : Posix.join "/proj" "parts/violin.ly" = "/proj/parts/violin.ly".
Proof. reflexivity. Qed.

Example posix_join_abs : Posix.join "/proj" "/lib/a.ly" = "/lib/a.ly".
Proof. reflexivity. Qed.

Example posix_join_empty : Posix.join "" "foo.ly" = "foo.ly".
Proof. reflexivity. Qed.

Example posix_normpath_dotdot : Posix.normpath "/x/a/../b.ly" = "/x/b.ly".
Proof. reflexivity. Qed.

Example posix_normpath_rel : Posix.normpath "a/./b//c/.." = "a/b".
Proof. reflexivity. Qed.

Example posix_normpath_up : Posix.normpath "../../a" = "../../a".
Proof. reflexivity. Qed.

Example posix_dirname_file : Posix.dirname "/proj/main.ly" = "/proj".
Proof. reflexivity. Qed.

Example posix_dirname_root : Posix.dirname "/main.ly" = "/".
Proof. reflexivity. Qed.

Example posix_dirname_none : Posix.dirname "" = "" /\ Posix.dirname "main.ly" = "".
Proof. split; reflexivity. Qed.


(** ** Cursor mode: [filenames_at_cursor] *)

Section CursorMode.

Variable os : OS.
Variable info : Document -> DocInfo.

(** The accumulator of the outer loop only grows at its end. *)
Lemma filenames_for_acc existing directory path acc f :
  filenames_for os existing directory path acc f
  = acc ++ filenames_for os existing directory path [] f.
Proof.
  unfold filenames_for.
  destruct (snd (access_dirs os f path)); [reflexivity|].
  destruct (negb existing); [reflexivity|].
  now rewrite app_nil_r.
Qed.

Lemma filenames_fold existing directory path fnames acc :
  fold_left (filenames_for os existing directory path) fnames acc
  = acc ++ flat_map (filenames_for os existing directory path []) fnames.
Proof.
  revert acc; induction fnames as [|f fnames IH]; intros acc; simpl.
  - now rewrite app_nil_r.
  - rewrite IH, filenames_for_acc, <- app_assoc. reflexivity.
Qed.

(** The result is the concatenation, in the order of the names, of what
    each name contributes on its own. *)
Lemma filenames_at_cursor_flat_map cursor existing :
  filenames_at_cursor os info cursor existing
  = flat_map (contribution os info cursor existing)
             (references_at_cursor os info cursor).
Proof. unfold filenames_at_cursor. now rewrite filenames_fold. Qed.




(** Whatever the loop accepts passed [os.access]. *)
Lemma access_dirs_accepted f path name :
  snd (access_dirs os f path) = Some name ->
  access_R_OK os name = true /\ exists p, In p path /\ name = candidate os p f.
Proof.
  induction path as [|p path IH]; simpl; [discriminate|].
  destruct (access_R_OK os (candidate os p f)) eqn:E; simpl.
  - intros [= <-]. split; [exact E|]. exists p; auto.
  - intros H. destruct (IH H) as [Ha [q [Hq ->]]]. split; [exact Ha|].
    exists q; auto.
Qed.

(** With [existing=True] every returned path passed [os.access(_, R_OK)]. *)
Lemma filenames_at_cursor_readable cursor name :
  In name (filenames_at_cursor os info cursor true) ->
  access_R_OK os name = true.
Proof.
  rewrite filenames_at_cursor_flat_map, in_flat_map.
  intros [f [_ Hin]]. unfold contribution, filenames_for in Hin.
  destruct (snd (access_dirs os f _)) eqn:E; simpl in Hin.
  - destruct Hin as [<-|[]]. now apply access_dirs_accepted in E.
  - destruct Hin.
Qed.



Lemma char_in_spec c s :
  PyStr.char_in c s = true <-> In c (list_ascii_of_string s).
Proof.
  unfold PyStr.char_in. rewrite existsb_exists. split.
  - intros [x [Hin Heq]]. apply Ascii.eqb_eq in Heq. now subst.
  - intros Hin. exists c. split; [exact Hin|apply Ascii.eqb_refl].
Qed.

(** C6.  When the lexer yields no argument for the range of the cursor:
    a selection whose text, once stripped, holds no line break gives the
    selected text itself, untouched, as the one name; in every other case
    no name is returned. *)
Theorem references_at_cursor_selection_fallback cursor :
  range_args (info (document cursor))
             (fst (cursor_range cursor)) (snd (cursor_range cursor)) = [] ->
  let single_line :=
    hasSelection cursor = true
    /\ ~ In PyStr.newline
            (list_ascii_of_string (str_strip os (selection_text cursor))) in
  (single_line -> references_at_cursor os info cursor = [selection_text cursor])
  /\ (~ single_line -> references_at_cursor os info cursor = []).
Proof.
  intros Hnone single_line. unfold single_line, references_at_cursor.
  destruct (cursor_range cursor) as [start end_]. simpl in Hnone.
  rewrite Hnone. simpl.
  destruct (hasSelection cursor); simpl.
  - destruct (PyStr.char_in PyStr.newline (str_strip os (selection_text cursor)))
      eqn:E; simpl.
    + apply char_in_spec in E. split; [intros [_ H]; contradiction|reflexivity].
    + split; [reflexivity|].
      intros H. exfalso. apply H. split; [reflexivity|].
      intros Hin. apply char_in_spec in Hin. congruence.
  - split; [intros [H _]; discriminate|reflexivity].
Qed.

(** A document without a file name and without include path has the
    empty search path; [filenames_at_cursor] then gives the empty list
    with [existing=True], and with [existing=False] one synthesized path
    per name. *)
Lemma filenames_at_cursor_empty_path cursor :
  toLocalFile (document cursor) = "" ->
  includepath (info (document cursor)) = [] ->
  cursor_path os info cursor = []
  /\ filenames_at_cursor os info cursor true = []
  /\ filenames_at_cursor os info cursor false
     = map (fun f => candidate os (cursor_directory os cursor) f)
           (references_at_cursor os info cursor).
Proof.
  intros Hfile Hroots.
  assert (Hpath : cursor_path os info cursor = []).
  { unfold cursor_path, search_path. now rewrite Hfile, Hroots. }
  split; [exact Hpath|].
  rewrite !filenames_at_cursor_flat_map. unfold contribution.
  rewrite Hpath. unfold filenames_for. simpl. split.
  - induction (references_at_cursor os info cursor); simpl; auto.
  - induction (references_at_cursor os info cursor) as [|f l IH]; simpl;
      [reflexivity|now rewrite IH].
Qed.

End CursorMode.

(** ** Cursor mode on concrete documents *)

Example include_line_text :
  String.length (include_line "a.ly") = 15
  /\ String.length (include_line "foo.ly") = 17
  /\ String.length (include_line "parts") = 16.
Proof. repeat split. Qed.




(** C5 at a failing input: the line includes [parts], a readable directory
    next to the document; [filenames_at_cursor] with [existing=True]
    returns it, although the search path is not empty. *)
Theorem filenames_at_cursor_returns_directory :
  let cursor := caret IncludesDirectory.doc 0 in
  cursor_path IncludesDirectory.os IncludesDirectory.info cursor = ["/proj"]
  /\ filenames_at_cursor IncludesDirectory.os IncludesDirectory.info cursor true
     = ["/proj/parts"]
  /\ isdir IncludesDirectory.os "/proj/parts" = true
  /\ includeTarget IncludesDirectory.os IncludesDirectory.info cursor
     = Targets [].
Proof. repeat split. Qed.

Lemma references_at_cursor_selection_fallback_witness :
  selection_text TrimmedSelection.around_name
  = String.append " foo.ly" TrimmedSelection.line_break
  /\ references_at_cursor TrimmedSelection.os TrimmedSelection.info
                          TrimmedSelection.around_name
     = [String.append " foo.ly" TrimmedSelection.line_break]
  /\ selection_text TrimmedSelection.across_lines
     = String.append "foo.ly" (String.append TrimmedSelection.line_break "nex")
  /\ references_at_cursor TrimmedSelection.os TrimmedSelection.info
                          TrimmedSelection.across_lines
     = []
  /\ references_at_cursor TrimmedSelection.os TrimmedSelection.info
                          (caret TrimmedSelection.doc 4)
     = [].
Proof.
  split; [reflexivity|]. split; [|split; [reflexivity|split]].
  - destruct (references_at_cursor_selection_fallback
                TrimmedSelection.os TrimmedSelection.info
                TrimmedSelection.around_name eq_refl) as [Hsel _].
    apply Hsel. split; [reflexivity|].
    vm_compute. intuition discriminate.
  - destruct (references_at_cursor_selection_fallback
                TrimmedSelection.os TrimmedSelection.info
                TrimmedSelection.across_lines eq_refl) as [_ Hnone].
    apply Hnone. intros [_ H]. apply H.
    vm_compute. repeat (first [left; reflexivity | right]).
  - destruct (references_at_cursor_selection_fallback
                TrimmedSelection.os TrimmedSelection.info
                (caret TrimmedSelection.doc 4) eq_refl) as [_ Hnone].
    apply Hnone. intros [H _]. discriminate H.
Defined.

(** The white space of Latin-1 is stripped like that of ASCII. *)
Example strip_no_break_space :
  PyStr.strip (String (ascii_of_nat 160)
                 (String.append "foo.ly" (String (ascii_of_nat 133) " ")))
  = "foo.ly".
Proof. reflexivity. Qed.

Example selection_with_line_end_is_single_line :
  PyStr.strip " foo.ly
" = "foo.ly".
Proof. reflexivity. Qed.

Example filenames_at_cursor_unsaved_no_roots :
  filenames_at_cursor Unsaved.os Unsaved.info_no_roots (caret Unsaved.doc 0) true = []
  /\ filenames_at_cursor Unsaved.os Unsaved.info_no_roots (caret Unsaved.doc 0) false
     = ["foo.ly"].
Proof.
  destruct (filenames_at_cursor_empty_path
              Unsaved.os Unsaved.info_no_roots (caret Unsaved.doc 0)
              eq_refl eq_refl) as [_ [Hexisting Hmissing]].
  split; [exact Hexisting|exact Hmissing].
Qed.

(** ** Document scan: [genToolTipInfo] *)

Section ScanMode.

Variable os : OS.
Variable info : Document -> DocInfo.

(** The inner loop yields the first candidate that is a file, and leaves
    the state alone when there is none. *)
Lemma tooltip_dirs_find f path st :
  tooltip_dirs os f path st
  = match first_file os path f with
    | Some name => (Some name, true)
    | None => st
    end.
Proof.
  unfold first_file. induction path as [|p path IH]; simpl; [reflexivity|].
  destruct (is_file os (candidate os p f)); [reflexivity|exact IH].
Qed.

Lemma first_file_split f pre d post :
  (forall p, In p pre -> is_file os (candidate os p f) = false) ->
  is_file os (candidate os d f) = true ->
  first_file os (pre ++ d :: post) f = Some (candidate os d f).
Proof.
  intros Hpre Hd. unfold first_file.
  induction pre as [|p pre IH]; simpl.
  - now rewrite Hd.
  - rewrite (Hpre p (or_introl eq_refl)). apply IH.
    intros q Hq. apply Hpre. now right.
Qed.

Lemma first_file_none f path :
  (forall p, In p path -> is_file os (candidate os p f) = false) ->
  first_file os path f = None.
Proof.
  intros Hall. unfold first_file.
  induction path as [|p path IH]; simpl; [reflexivity|].
  rewrite (Hall p (or_introl eq_refl)). apply IH.
  intros q Hq. apply Hall. now right.
Qed.

(** After the two nested loops the state holds the last resolution made,
    if any. *)
Lemma tooltip_fold path fnames st :
  fold_left (fun st f => tooltip_dirs os f path st) fnames st
  = match rev (resolutions os path fnames) with
    | name :: _ => (Some name, true)
    | [] => st
    end.
Proof.
  revert st. induction fnames as [|f fnames IH]; intros st; simpl;
    [reflexivity|].
  rewrite IH, tooltip_dirs_find, rev_app_distr.
  destruct (rev (resolutions os path fnames)) as [|name rest];
    [|reflexivity].
  simpl. destruct (first_file os path f); reflexivity.
Qed.

Lemma last_rev_head {A : Type} (l : list A) (d : A) :
  last l d = match rev l with x :: _ => x | [] => d end.
Proof.
  induction l as [|a l IH] using rev_ind; [reflexivity|].
  rewrite last_last, rev_app_distr. reflexivity.
Qed.

(** The content of an entry: the last resolution, or the marker. *)
Lemma tooltip_entry_content path block fnames :
  content (tooltip_entry os path block fnames)
  = Some (last (resolutions os path fnames) invalid_marker).
Proof.
  unfold tooltip_entry. simpl. rewrite tooltip_fold, last_rev_head.
  destruct (rev (resolutions os path fnames)); reflexivity.
Qed.

Lemma resolutions_app path l1 l2 :
  resolutions os path (l1 ++ l2)
  = resolutions os path l1 ++ resolutions os path l2.
Proof. unfold resolutions. apply flat_map_app. Qed.

Lemma resolutions_none path fnames :
  (forall f, In f fnames -> first_file os path f = None) ->
  resolutions os path fnames = [].
Proof.
  intros Hall. induction fnames as [|f fnames IH]; simpl; [reflexivity|].
  rewrite (Hall f (or_introl eq_refl)). simpl. apply IH.
  intros g Hg. apply Hall. now right.
Qed.

(** The last name that resolves decides the content. *)
Lemma tooltip_entry_last_resolved path block l1 f l2 name :
  first_file os path f = Some name ->
  (forall g, In g l2 -> first_file os path g = None) ->
  content (tooltip_entry os path block (l1 ++ f :: l2)) = Some name.
Proof.
  intros Hf Hl2. rewrite tooltip_entry_content. f_equal.
  change (f :: l2) with ([f] ++ l2).
  rewrite !resolutions_app, (resolutions_none path l2 Hl2), app_nil_r.
  simpl. rewrite Hf. simpl. apply last_last.
Qed.

(** *** The [while] loop *)

(** More turns do not change a result already reached. *)
Lemma scan_loop_more_fuel cursor path k st r :
  scan_loop os info k cursor path st = Some r ->
  scan_loop os info (S k) cursor path st = Some r.
Proof.
  revert st. induction k as [|k IH]; intros st; simpl.
  - destruct (scan_step os info cursor path st); [discriminate|auto].
  - destruct (scan_step os info cursor path st) as [st'|] eqn:E; [|auto].
    intros H. apply IH in H. exact H.
Qed.

(** A located block without names sends the loop back to its test with
    the same cursor and the same list. *)
Lemma scan_step_nameless cursor path st block :
  pointCursor st = Some block ->
  block_names info cursor block = [] ->
  scan_step os info cursor path st
  = Some {| startIndex := position block + block_length block;
            pointCursor := Some block;
            toolTipInfo := toolTipInfo st |}.
Proof.
  intros Hpc Hnames. unfold scan_step. rewrite Hpc.
  unfold block_names in Hnames. rewrite Hnames. reflexivity.
Qed.

(** From then on the loop condition holds at every turn: no amount of
    fuel lets the loop return. *)
Lemma scan_loop_nameless_diverges cursor path block fuel :
  forall st,
    pointCursor st = Some block ->
    block_names info cursor block = [] ->
    scan_loop os info fuel cursor path st = None.
Proof.
  induction fuel as [|fuel IH]; intros st Hpc Hnames; simpl;
    rewrite (scan_step_nameless cursor path st block Hpc Hnames).
  - reflexivity.
  - apply IH; [reflexivity|exact Hnames].
Qed.

(** In particular the scan never returns when the first block found has
    no names. *)
Lemma genToolTipInfo_nameless_diverges cursor block :
  find (document cursor) 0 = Some block ->
  block_names info cursor block = [] ->
  forall fuel, genToolTipInfo os info fuel cursor = None.
Proof.
  intros Hfind Hnames fuel. unfold genToolTipInfo.
  apply (scan_loop_nameless_diverges cursor _ block); [exact Hfind|exact Hnames].
Qed.

(** *** The search of the marker along the blocks *)

Lemma find_in_skip from pre suf :
  (forall b, In b pre -> position b + block_length b <= from) ->
  find_in from (pre ++ suf) = find_in from suf.
Proof.
  intros Hpre. induction pre as [|b pre IH]; simpl; [reflexivity|].
  assert (Hb : (from <? position b + block_length b) = false).
  { apply Nat.ltb_ge. apply Hpre. now left. }
  rewrite Hb. simpl. apply IH. intros c Hc. apply Hpre. now right.
Qed.

Lemma find_in_layout from pos n ts :
  from <= pos ->
  find_in from (layout pos n ts)
  = List.find (fun b => has_marker_from 0 (text b)) (layout pos n ts).
Proof.
  revert pos n. induction ts as [|t ts IH]; intros pos n Hle; simpl;
    [reflexivity|].
  unfold block_length. simpl.
  assert (Hlt : (from <? pos + (String.length t + 1)) = true)
    by (apply Nat.ltb_lt; lia).
  assert (Hoff : from - pos = 0) by lia.
  rewrite Hlt, Hoff. simpl.
  destruct (has_marker_from 0 t); [reflexivity|].
  apply IH. lia.
Qed.

(** The loop started on the first marked block of a suffix of the
    document, every marked block of which has names, returns within as
    many turns as the suffix has blocks and appends the entries of its
    marked blocks, in order. *)
Lemma scan_loop_suffix cursor path ts :
  forall pre pos n acc s,
    blocks (document cursor) = pre ++ layout pos n ts ->
    (forall b, In b pre -> position b + block_length b <= pos) ->
    (forall b, In b (layout pos n ts) ->
               has_marker_from 0 (text b) = true ->
               block_names info cursor b <> []) ->
    scan_loop os info (List.length ts) cursor path
      {| startIndex := s;
         pointCursor :=
           List.find (fun b => has_marker_from 0 (text b)) (layout pos n ts);
         toolTipInfo := acc |}
    = Some (acc ++ map (block_entry os info cursor path)
                       (filter (fun b => has_marker_from 0 (text b))
                               (layout pos n ts))).
Proof.
  induction ts as [|t ts IH]; intros pre pos n acc s Hdoc Hpre Hnamed.
  - simpl. now rewrite app_nil_r.
  - set (b := {| position := pos; blockNumber := n; text := t |}).
    assert (Hlay : layout pos n (t :: ts)
                   = b :: layout (pos + String.length t + 1) (S n) ts)
      by reflexivity.
    rewrite Hlay in *.
    assert (Hdoc' : blocks (document cursor)
                    = (pre ++ [b]) ++ layout (pos + String.length t + 1) (S n) ts)
      by (rewrite Hdoc, <- app_assoc; reflexivity).
    assert (Hpre' : forall c, In c (pre ++ [b]) ->
              position c + block_length c <= pos + String.length t + 1).
    { intros c Hc. apply in_app_or in Hc. destruct Hc as [Hc|[<-|[]]].
      - specialize (Hpre c Hc). lia.
      - unfold block_length. simpl. lia. }
    assert (Hnamed' : forall c,
              In c (layout (pos + String.length t + 1) (S n) ts) ->
              has_marker_from 0 (text c) = true -> block_names info cursor c <> []).
    { intros c Hc. apply Hnamed. now right. }
    cbn [List.find filter]. change (text b) with t.
    destruct (has_marker_from 0 t) eqn:Hm.
    + pose proof (Hnamed b (or_introl eq_refl) Hm) as Hb.
      cbn [List.length scan_loop]. unfold scan_step at 1. cbn [pointCursor].
      fold (block_names info cursor b).
      destruct (block_names info cursor b) as [|f fnames] eqn:Hnames;
        [congruence|].
      cbn [PyStr.py_not toolTipInfo].
      assert (Hfind : find (document cursor) (position b + block_length b)
                      = List.find (fun c => has_marker_from 0 (text c))
                          (layout (pos + String.length t + 1) (S n) ts)).
      { unfold find. rewrite Hdoc'. rewrite find_in_skip.
        - apply find_in_layout. unfold block_length. simpl. lia.
        - intros c Hc. specialize (Hpre' c Hc).
          unfold block_length at 2. simpl. lia. }
      rewrite Hfind.
      rewrite (IH (pre ++ [b]) _ _ _ _ Hdoc' Hpre' Hnamed').
      cbn [map]. unfold block_entry at 2. rewrite Hnames.
      rewrite <- app_assoc. reflexivity.
    + apply scan_loop_more_fuel.
      apply (IH (pre ++ [b]) _ _ _ _ Hdoc' Hpre' Hnamed').
Qed.

(** When the lexer gives names for every block in which the marker
    occurs, the scan returns within as many turns as the document has
    blocks: one entry per such block, in document order. *)
Theorem genToolTipInfo_returns cursor :
  (forall b, In b (marker_blocks (document cursor)) ->
             block_names info cursor b <> []) ->
  genToolTipInfo os info (List.length (lines (document cursor))) cursor
  = Some (map (block_entry os info cursor
                 (search_path os (info (document cursor)) (document cursor)))
              (marker_blocks (document cursor))).
Proof.
  intros Hnamed. unfold genToolTipInfo, scan_init, marker_blocks, find, blocks.
  rewrite find_in_layout by lia.
  apply (scan_loop_suffix cursor _ (lines (document cursor)) [] 0 0 [] 0).
  - reflexivity.
  - intros b [].
  - intros b Hb Hm. apply Hnamed. unfold marker_blocks, blocks.
    apply filter_In. split; assumption.
Qed.

(** *** One entry per block with names *)

(** A turn of the loop on a located block for which the lexer gives
    names appends exactly one entry, numbered by the block.  Its content
    is the invalid marker when no name resolves to an existing file, and
    otherwise the resolution of the last name that resolves: earlier
    resolutions are overwritten. *)
Lemma scan_step_one_entry cursor path st block :
  pointCursor st = Some block ->
  block_names info cursor block <> [] ->
  let entry := block_entry os info cursor path block in
  (exists st',
      scan_step os info cursor path st = Some st'
      /\ toolTipInfo st' = toolTipInfo st ++ [entry])
  /\ num entry = blockNumber block
  /\ ((forall f p, In f (block_names info cursor block) -> In p path ->
                   is_file os (candidate os p f) = false) ->
      content entry = Some invalid_marker)
  /\ (forall l1 f l2 name,
        block_names info cursor block = l1 ++ f :: l2 ->
        first_file os path f = Some name ->
        (forall g, In g l2 -> first_file os path g = None) ->
        content entry = Some name).
Proof.
  intros Hpc Hnames entry. split; [|split; [reflexivity|split]].
  - unfold scan_step. rewrite Hpc. fold (block_names info cursor block).
    destruct (block_names info cursor block) eqn:E; [congruence|].
    simpl. eexists. split; [reflexivity|]. simpl.
    unfold entry, block_entry. now rewrite E.
  - intros Hfail. unfold entry, block_entry.
    rewrite tooltip_entry_content, resolutions_none; [reflexivity|].
    intros f Hf. apply first_file_none. intros p Hp. now apply Hfail.
  - intros l1 f l2 name Hsplit Hf Hl2. unfold entry, block_entry.
    rewrite Hsplit. now apply tooltip_entry_last_resolved.
Qed.

(** For the last name that resolves, the content of the dict built at
    lines 115-128 is the candidate joined against the earliest directory
    of the search path that holds the file, whatever the later
    directories hold. *)
Lemma tooltip_entry_first_root path block l1 f l2 pre d post :
  path = pre ++ d :: post ->
  (forall p, In p pre -> is_file os (candidate os p f) = false) ->
  is_file os (candidate os d f) = true ->
  (forall g p, In g l2 -> In p path ->
               is_file os (candidate os p g) = false) ->
  content (tooltip_entry os path block (l1 ++ f :: l2))
  = Some (normpath os (join os d f)).
Proof.
  intros -> Hpre Hd Hl2.
  apply tooltip_entry_last_resolved.
  - now apply first_file_split.
  - intros g Hg. apply first_file_none. intros p Hp. now apply Hl2.
Qed.

(** *** [includeTarget] *)

Lemma includeTarget_dirs_acc f path targets :
  includeTarget_dirs os f path targets
  = targets
    ++ map (fun p => candidate os p f)
           (filter (fun p => is_file os (candidate os p f)) path).
Proof.
  revert targets. induction path as [|p path IH]; intros targets; simpl.
  - now rewrite app_nil_r.
  - rewrite IH. destruct (is_file os (candidate os p f)); simpl.
    + now rewrite <- app_assoc.
    + reflexivity.
Qed.

Lemma includeTarget_fold path fnames targets :
  fold_left (fun targets f => includeTarget_dirs os f path targets)
            fnames targets
  = targets
    ++ flat_map (fun f =>
                   map (fun p => candidate os p f)
                       (filter (fun p => is_file os (candidate os p f)) path))
                fnames.
Proof.
  revert targets. induction fnames as [|f fnames IH]; intros targets; simpl.
  - now rewrite app_nil_r.
  - rewrite IH, includeTarget_dirs_acc, <- app_assoc. reflexivity.
Qed.

(** C10.  [includeTarget] returns the empty string when the lexer gives
    no name for the block of the cursor.  Otherwise it returns a list
    holding, for each name in turn, the candidate of every directory of
    the search path under which the name is an existing file that is not
    a directory, in the order of the search path: the loop over the
    directories does not stop at a match. *)
Theorem includeTarget_all_matches cursor :
  let block := cursor_block cursor in
  let names :=
    range_args (info (document cursor)) (position block)
               (position block + String.length (text block) + 1) in
  let path := search_path os (info (document cursor)) (document cursor) in
  includeTarget os info cursor
  = match names with
    | [] => EmptyStr
    | _ :: _ =>
        Targets
          (flat_map
             (fun f =>
                map (fun p => normpath os (join os p f))
                    (filter (fun p => is_file os (candidate os p f)) path))
             names)
    end.
Proof.
  intros block names path. unfold includeTarget.
  fold block. fold names. fold path.
  destruct names as [|f names]; [reflexivity|].
  cbn [PyStr.py_not]. rewrite includeTarget_fold. reflexivity.
Qed.

End ScanMode.

(** ** The document scan on concrete documents *)

(** C1 at a failing input.  The scan finds the bare [\include] of the second
    line, for which the lexer gives no name; the [continue] of line 112
    then skips the search of the next occurrence, so the loop tests the
    same cursor again, whatever the number of turns allowed.  The include
    of the third line is never reached. *)
Theorem genToolTipInfo_hangs_on_bare_include :
  forall fuel,
    genToolTipInfo BareInclude.os BareInclude.info fuel (caret BareInclude.doc 0)
    = None.
Proof.
  apply (genToolTipInfo_nameless_diverges
           BareInclude.os BareInclude.info (caret BareInclude.doc 0)
           {| position := 9; blockNumber := 1; text := "\include" |});
    reflexivity.
Qed.

(** Without the bare line the same scan returns. *)
Example genToolTipInfo_two_includes :
  genToolTipInfo TwoIncludes.os TwoIncludes.info 3 (caret TwoIncludes.doc 0)
  = Some [ {| num := 0; content := Some "/proj/a.ly" |};
           {| num := 2; content := Some invalid_marker |} ].
Proof.
  apply (genToolTipInfo_returns
           TwoIncludes.os TwoIncludes.info (caret TwoIncludes.doc 0)).
  intros b Hb. vm_compute in Hb.
  destruct Hb as [<-|[<-|[]]]; vm_compute; discriminate.
Qed.

(** C2 as stated fails where [a.ly] exists under both directories of the
    search path: the content is the candidate of [/proj], the earlier one,
    not that of [/lib], the latest. *)
Lemma genToolTipInfo_not_last_root :
  let cursor := caret TwoRoots.doc 0 in
  search_path TwoRoots.os (TwoRoots.info TwoRoots.doc) TwoRoots.doc
  = ["/proj"; "/lib"]
  /\ is_file TwoRoots.os (candidate TwoRoots.os "/proj" "a.ly") = true
  /\ is_file TwoRoots.os (candidate TwoRoots.os "/lib" "a.ly") = true
  /\ genToolTipInfo TwoRoots.os TwoRoots.info 1 cursor
     = Some [ {| num := 0; content := Some "/proj/a.ly" |} ]
  /\ genToolTipInfo TwoRoots.os TwoRoots.info 1 cursor
     <> Some [ {| num := 0;
                  content := Some (candidate TwoRoots.os "/lib" "a.ly") |} ].
Proof.
  repeat split; try reflexivity. vm_compute. discriminate.
Qed.

Example tooltip_entry_two_roots :
  content (tooltip_entry TwoRoots.os ["/proj"; "/lib"] invalid_block ["a.ly"])
  = Some "/proj/a.ly".
Proof.
  apply (tooltip_entry_first_root
           TwoRoots.os ["/proj"; "/lib"] invalid_block [] "a.ly" []
           [] "/proj" ["/lib"]).
  - reflexivity.
  - intros p [].
  - reflexivity.
  - intros g p [].
Qed.

Example scan_step_first_include :
  exists st',
    scan_step TwoIncludes.os TwoIncludes.info (caret TwoIncludes.doc 0)
              ["/proj"; "/lib"] (scan_init (caret TwoIncludes.doc 0))
    = Some st'
    /\ toolTipInfo st' = [ {| num := 0; content := Some "/proj/a.ly" |} ].
Proof.
  destruct (scan_step_one_entry
              TwoIncludes.os TwoIncludes.info (caret TwoIncludes.doc 0)
              ["/proj"; "/lib"] (scan_init (caret TwoIncludes.doc 0))
              {| position := 0; blockNumber := 0; text := include_line "a.ly" |})
    as [[st' [Hstep Hinfo]] _].
  - reflexivity.
  - discriminate.
  - exists st'. split; [exact Hstep|exact Hinfo].
Qed.

Example includeTarget_two_roots :
  includeTarget TwoRoots.os TwoRoots.info (caret TwoRoots.doc 0)
  = Targets ["/proj/a.ly"; "/lib/a.ly"]
  /\ includeTarget PlainSelection.os PlainSelection.info PlainSelection.cursor
     = EmptyStr.
Proof. split; reflexivity. Qed.

(** ** Opening the file at the cursor *)


(** Called with both arguments, [open_targets] opens each file in turn and
    gives the focus to the last one. *)
Example open_targets_two_files (w : MainWindow) :
  openUrl w = (fun t => Some t) ->
  open_targets [PyWindow w; PyStrList ["/proj/a.ly"; "/lib/b.ly"]]
  = (Returned PyTrue,
     [OpenUrl "/proj/a.ly"; OpenUrl "/lib/b.ly"; SetCurrentDocument "/lib/b.ly"]).
Proof. intros H. unfold open_targets, open_targets_body. simpl. rewrite !H. reflexivity. Qed.

(** * Further properties of the resolvers *)

(** ** What the document scan returns, when it returns *)

Section ScanResults.

Variable os : OS.
Variable info : Document -> DocInfo.

Lemma scan_loop_le_fuel cursor path k m st r :
  k <= m ->
  scan_loop os info k cursor path st = Some r ->
  scan_loop os info m cursor path st = Some r.
Proof.
  intros Hle H. induction Hle as [|m Hle IH]; [exact H|].
  apply scan_loop_more_fuel, IH.
Qed.

(** Two runs that both return agree, whatever their fuel. *)
Lemma scan_loop_agree cursor path k m st r r' :
  scan_loop os info k cursor path st = Some r ->
  scan_loop os info m cursor path st = Some r' ->
  r = r'.
Proof.
  intros H H'. destruct (Nat.le_ge_cases k m) as [L|L].
  - apply (scan_loop_le_fuel cursor path k m st r L) in H. congruence.
  - apply (scan_loop_le_fuel cursor path m k st r' L) in H'. congruence.
Qed.

(** The search restarted at the end of a block goes through the blocks
    that follow it, each from its first character. *)
Lemma find_after_block cursor pre pos n t ts :
  blocks (document cursor)
  = pre ++ {| position := pos; blockNumber := n; text := t |}
        :: layout (pos + String.length t + 1) (S n) ts ->
  (forall b, In b pre -> position b + block_length b <= pos) ->
  find (document cursor) (pos + (String.length t + 1))
  = List.find (fun b => has_marker_from 0 (text b))
              (layout (pos + String.length t + 1) (S n) ts).
Proof.
  intros Hdoc Hpre. unfold find. rewrite Hdoc.
  change (pre ++ ?b :: ?l) with (pre ++ [b] ++ l). rewrite app_assoc.
  rewrite find_in_skip.
  - apply find_in_layout. lia.
  - intros c Hc. apply in_app_or in Hc. destruct Hc as [Hc|[<-|[]]].
    + specialize (Hpre c Hc). lia.
    + unfold block_length. simpl. lia.
Qed.

(** A marked block without names anywhere in the rest of the document
    keeps the loop from returning: the blocks before it are processed, then
    the loop stays on it. *)
Lemma scan_loop_suffix_diverges cursor path ts :
  forall pre pos n acc s fuel,
    blocks (document cursor) = pre ++ layout pos n ts ->
    (forall b, In b pre -> position b + block_length b <= pos) ->
    (exists b, In b (layout pos n ts)
               /\ has_marker_from 0 (text b) = true
               /\ block_names info cursor b = []) ->
    scan_loop os info fuel cursor path
      {| startIndex := s;
         pointCursor :=
           List.find (fun b => has_marker_from 0 (text b)) (layout pos n ts);
         toolTipInfo := acc |}
    = None.
Proof.
  induction ts as [|t ts IH]; intros pre pos n acc s fuel Hdoc Hpre Hbad.
  - destruct Hbad as [b [[] _]].
  - set (b0 := {| position := pos; blockNumber := n; text := t |}).
    assert (Hlay : layout pos n (t :: ts)
                   = b0 :: layout (pos + String.length t + 1) (S n) ts)
      by reflexivity.
    rewrite Hlay in *.
    assert (Hdoc' : blocks (document cursor)
                    = (pre ++ [b0]) ++ layout (pos + String.length t + 1) (S n) ts)
      by (rewrite Hdoc, <- app_assoc; reflexivity).
    assert (Hpre' : forall c, In c (pre ++ [b0]) ->
              position c + block_length c <= pos + String.length t + 1).
    { intros c Hc. apply in_app_or in Hc. destruct Hc as [Hc|[<-|[]]].
      - specialize (Hpre c Hc). lia.
      - unfold block_length. simpl. lia. }
    cbn [List.find]. change (text b0) with t.
    destruct Hbad as [b [Hin [Hm Hnames]]].
    destruct (has_marker_from 0 t) eqn:Hm0.
    + destruct (block_names info cursor b0) as [|f fnames] eqn:Hn0.
      * apply (scan_loop_nameless_diverges os info cursor path b0);
          [reflexivity|exact Hn0].
      * assert (Hrest : In b (layout (pos + String.length t + 1) (S n) ts)).
        { destruct Hin as [<-|Hin]; [congruence|exact Hin]. }
        assert (Hstep : scan_step os info cursor path
                  {| startIndex := s; pointCursor := Some b0; toolTipInfo := acc |}
                = Some {| startIndex := position b0 + block_length b0;
                          pointCursor :=
                            List.find (fun c => has_marker_from 0 (text c))
                              (layout (pos + String.length t + 1) (S n) ts);
                          toolTipInfo :=
                            acc ++ [tooltip_entry os path b0 (f :: fnames)] |}).
        { unfold scan_step. cbn [pointCursor].
          fold (block_names info cursor b0). rewrite Hn0.
          cbn [PyStr.py_not toolTipInfo].
          rewrite <- (find_after_block cursor pre pos n t ts Hdoc Hpre).
          reflexivity. }
        destruct fuel as [|fuel]; cbn [scan_loop]; rewrite Hstep;
          [reflexivity|].
        apply (IH (pre ++ [b0]) _ _ _ _ fuel Hdoc' Hpre').
        exists b. auto.
    + assert (Hrest : In b (layout (pos + String.length t + 1) (S n) ts)).
      { destruct Hin as [<-|Hin]; [simpl in Hm; congruence|exact Hin]. }
      apply (IH (pre ++ [b0]) _ _ _ _ fuel Hdoc' Hpre').
      exists b. auto.
Qed.

Lemma genToolTipInfo_diverges cursor b :
  In b (marker_blocks (document cursor)) ->
  block_names info cursor b = [] ->
  forall fuel, genToolTipInfo os info fuel cursor = None.
Proof.
  intros Hin Hnames fuel. unfold marker_blocks in Hin.
  apply filter_In in Hin. destruct Hin as [Hin Hm].
  unfold genToolTipInfo, scan_init, find, blocks.
  rewrite find_in_layout by lia.
  apply (scan_loop_suffix_diverges cursor _ (lines (document cursor)) [] 0 0 [] 0 fuel).
  - reflexivity.
  - intros c [].
  - exists b. auto.
Qed.

(** Whether some marked block has no names can be decided. *)
Lemma nameless_or_named cursor :
  (exists b, In b (marker_blocks (document cursor))
             /\ block_names info cursor b = [])
  \/ (forall b, In b (marker_blocks (document cursor)) ->
                block_names info cursor b <> []).
Proof.
  induction (marker_blocks (document cursor)) as [|b l IH].
  - right. intros b [].
  - destruct (block_names info cursor b) eqn:E.
    + left. exists b. split; [now left|exact E].
    + destruct IH as [[c [Hc Hn]]|IH].
      * left. exists c. split; [now right|exact Hn].
      * right. intros c [<-|Hc]; [congruence|now apply IH].
Qed.

(** A returned result is the list of the entries of the marked blocks. *)
Lemma scan_result cursor fuel r :
  genToolTipInfo os info fuel cursor = Some r ->
  r = map (block_entry os info cursor
             (search_path os (info (document cursor)) (document cursor)))
          (marker_blocks (document cursor)).
Proof.
  intros Hr. destruct (nameless_or_named cursor) as [[b [Hb Hn]]|Hnamed].
  - rewrite (genToolTipInfo_diverges cursor b Hb Hn fuel) in Hr. discriminate.
  - pose proof (genToolTipInfo_returns os info cursor Hnamed) as Hall.
    unfold genToolTipInfo in *.
    exact (scan_loop_agree cursor _ _ _ _ _ _ Hr Hall).
Qed.

(** X1.  Whenever the scan returns, whatever the number of turns it was
    allowed, its result holds exactly one entry for each block in which the
    marker occurs, in document order, numbered by that block; a block in
    which the marker occurs several times still gives one entry. *)
Theorem genToolTipInfo_result cursor fuel r :
  genToolTipInfo os info fuel cursor = Some r ->
  r = map (block_entry os info cursor
             (search_path os (info (document cursor)) (document cursor)))
          (marker_blocks (document cursor))
  /\ map num r = map blockNumber (marker_blocks (document cursor)).
Proof.
  intros Hr. apply scan_result in Hr. subst r. split; [reflexivity|].
  rewrite map_map. reflexivity.
Qed.

(** X2.  The scan returns for some number of turns exactly when the lexer
    gives names for every block in which the marker occurs; as many turns
    as the document has blocks are then enough.  A single marked block
    without names, anywhere in the document, keeps it from returning. *)
Theorem genToolTipInfo_returns_iff cursor :
  ((exists fuel r, genToolTipInfo os info fuel cursor = Some r)
   <-> (forall b, In b (marker_blocks (document cursor)) ->
                  block_names info cursor b <> []))
  /\ ((exists fuel r, genToolTipInfo os info fuel cursor = Some r)
      <-> (exists r, genToolTipInfo os info
                       (List.length (lines (document cursor))) cursor = Some r)).
Proof.
  assert (Hdir : (exists fuel r, genToolTipInfo os info fuel cursor = Some r) ->
                 forall b, In b (marker_blocks (document cursor)) ->
                           block_names info cursor b <> []).
  { intros [fuel [r Hr]] b Hb Hn.
    rewrite (genToolTipInfo_diverges cursor b Hb Hn fuel) in Hr. discriminate. }
  split; split.
  - exact Hdir.
  - intros Hnamed. eexists. eexists.
    exact (genToolTipInfo_returns os info cursor Hnamed).
  - intros H. eexists.
    exact (genToolTipInfo_returns os info cursor (Hdir H)).
  - intros [r Hr]. eauto.
Qed.

Lemma layout_number_ge pos n ts b :
  In b (layout pos n ts) -> n <= blockNumber b.
Proof.
  revert pos n. induction ts as [|t ts IH]; intros pos n; simpl; [tauto|].
  intros [<-|Hin]; simpl; [lia|]. apply IH in Hin. lia.
Qed.

(** The number of a block is the index of its text among the lines. *)
Lemma layout_text pos n ts b :
  In b (layout pos n ts) ->
  nth_error ts (blockNumber b - n) = Some (text b).
Proof.
  revert pos n. induction ts as [|t ts IH]; intros pos n; simpl; [tauto|].
  intros [<-|Hin]; simpl.
  - now rewrite Nat.sub_diag.
  - pose proof (layout_number_ge _ _ _ _ Hin) as Hge.
    apply IH in Hin.
    replace (blockNumber b - n) with (S (blockNumber b - S n)) by lia.
    exact Hin.
Qed.

Lemma layout_numbers_sorted pos n ts :
  StronglySorted lt (map blockNumber (layout pos n ts)).
Proof.
  revert pos n. induction ts as [|t ts IH]; intros pos n; simpl;
    constructor; [apply IH|].
  apply Forall_forall. intros k Hk. apply in_map_iff in Hk.
  destruct Hk as [b [<- Hb]]. apply layout_number_ge in Hb. lia.
Qed.

Lemma sorted_map_filter {A : Type} (f : A -> nat) (keep : A -> bool) l :
  StronglySorted lt (map f l) ->
  StronglySorted lt (map f (filter keep l)).
Proof.
  induction l as [|a l IH]; simpl; intros Hs; [constructor|].
  apply StronglySorted_inv in Hs. destruct Hs as [Hs Hall].
  destruct (keep a); simpl; [|now apply IH].
  constructor; [now apply IH|].
  apply Forall_forall. intros k Hk. apply in_map_iff in Hk.
  destruct Hk as [b [<- Hb]]. apply filter_In in Hb.
  rewrite Forall_forall in Hall. apply Hall. apply in_map. tauto.
Qed.

Lemma layout_filter_length pos n ts :
  List.length (filter (fun b => has_marker_from 0 (text b)) (layout pos n ts))
  = List.length (filter (has_marker_from 0) ts).
Proof.
  revert pos n. induction ts as [|t ts IH]; intros pos n; simpl; [reflexivity|].
  destruct (has_marker_from 0 t); simpl; now rewrite IH.
Qed.

(** X3.  In a returned result the block numbers increase strictly from
    one entry to the next, each is the index of a line of the document in
    which the marker occurs, and there are as many entries as such lines. *)
Theorem genToolTipInfo_nums cursor fuel r :
  genToolTipInfo os info fuel cursor = Some r ->
  StronglySorted lt (map num r)
  /\ List.length r
     = List.length (filter (has_marker_from 0) (lines (document cursor)))
  /\ forall e, In e r ->
       exists t, nth_error (lines (document cursor)) (num e) = Some t
                 /\ has_marker_from 0 t = true.
Proof.
  intros Hr. apply scan_result in Hr. subst r.
  unfold marker_blocks, blocks. split; [|split].
  - rewrite map_map. cbn [block_entry tooltip_entry num].
    apply sorted_map_filter, layout_numbers_sorted.
  - rewrite length_map. apply layout_filter_length.
  - intros e He. apply in_map_iff in He. destruct He as [b [<- Hb]].
    apply filter_In in Hb. destruct Hb as [Hb Hm].
    exists (text b). split; [|exact Hm].
    apply layout_text in Hb. rewrite Nat.sub_0_r in Hb. exact Hb.
Qed.

Lemma last_default_or_in {A : Type} (l : list A) (d : A) :
  last l d = d \/ In (last l d) l.
Proof.
  induction l as [|a l IH] using rev_ind; [now left|].
  right. rewrite last_last. apply in_or_app. right. now left.
Qed.

Lemma first_file_some path f name :
  first_file os path f = Some name ->
  is_file os name = true
  /\ exists p, In p path /\ name = normpath os (join os p f).
Proof.
  unfold first_file. intros H. apply find_some in H. destruct H as [Hin Hfile].
  split; [exact Hfile|]. apply in_map_iff in Hin.
  destruct Hin as [p [<- Hp]]. exists p. split; [exact Hp|reflexivity].
Qed.

Lemma resolutions_in path fnames name :
  In name (resolutions os path fnames) ->
  exists f, In f fnames /\ first_file os path f = Some name.
Proof.
  unfold resolutions. rewrite in_flat_map. intros [f [Hf Hin]].
  exists f. split; [exact Hf|].
  destruct (first_file os path f); [|destruct Hin].
  destruct Hin as [<-|[]]. reflexivity.
Qed.

(** X4.  Every entry of a returned result has a content, which is either
    the invalid marker or a path that was found to exist and not to be a
    directory: the normalized join of a name the lexer gave for the block
    of the entry against a directory of the search path. *)
Theorem genToolTipInfo_contents cursor fuel r :
  genToolTipInfo os info fuel cursor = Some r ->
  forall e, In e r ->
    exists c,
      content e = Some c
      /\ (c = invalid_marker
          \/ (is_file os c = true
              /\ exists b f p,
                   In b (marker_blocks (document cursor))
                   /\ num e = blockNumber b
                   /\ In f (block_names info cursor b)
                   /\ In p (search_path os (info (document cursor))
                                        (document cursor))
                   /\ c = normpath os (join os p f))).
Proof.
  intros Hr e He. apply scan_result in Hr. subst r.
  apply in_map_iff in He. destruct He as [b [<- Hb]].
  unfold block_entry. rewrite tooltip_entry_content.
  eexists. split; [reflexivity|].
  destruct (last_default_or_in
              (resolutions os (search_path os (info (document cursor))
                                           (document cursor))
                           (block_names info cursor b)) invalid_marker)
    as [Hd|Hin]; [now left|].
  right. apply resolutions_in in Hin. destruct Hin as [f [Hf Hfirst]].
  apply first_file_some in Hfirst. destruct Hfirst as [Hfile [p [Hp Hc]]].
  split; [exact Hfile|]. exists b, f, p. auto.
Qed.

Lemma layout_number_inj pos n ts b1 b2 :
  In b1 (layout pos n ts) -> In b2 (layout pos n ts) ->
  blockNumber b1 = blockNumber b2 -> b1 = b2.
Proof.
  revert pos n. induction ts as [|t ts IH]; intros pos n; simpl; [tauto|].
  intros [<-|H1] [<-|H2]; simpl; intros Heq.
  - reflexivity.
  - apply layout_number_ge in H2. lia.
  - apply layout_number_ge in H1. lia.
  - exact (IH _ _ H1 H2 Heq).
Qed.

(** C2, as the code has it.  Whenever [genToolTipInfo] returns, the entry
    of a block in which the marker occurs carries, for the last name of
    that block that resolves, the candidate joined against the earliest
    directory of the search path under which the name is an existing file,
    whatever the directories after it hold: the first root wins, not the
    latest.  No other entry has the number of that block. *)
Theorem genToolTipInfo_first_root cursor b l1 f l2 pre d post fuel r :
  genToolTipInfo os info fuel cursor = Some r ->
  In b (marker_blocks (document cursor)) ->
  block_names info cursor b = l1 ++ f :: l2 ->
  search_path os (info (document cursor)) (document cursor)
  = pre ++ d :: post ->
  (forall p, In p pre -> is_file os (candidate os p f) = false) ->
  is_file os (candidate os d f) = true ->
  (forall g p, In g l2 -> In p (pre ++ d :: post) ->
               is_file os (candidate os p g) = false) ->
  In {| num := blockNumber b;
        content := Some (normpath os (join os d f)) |} r
  /\ forall e, In e r -> num e = blockNumber b ->
       content e = Some (normpath os (join os d f)).
Proof.
  intros Hr Hb Hnames Hpath Hpre Hd Hl2.
  apply scan_result in Hr. subst r.
  assert (Hentry : block_entry os info cursor
                     (search_path os (info (document cursor)) (document cursor)) b
                   = {| num := blockNumber b;
                        content := Some (normpath os (join os d f)) |}).
  { unfold block_entry. rewrite Hnames, Hpath.
    pose proof (tooltip_entry_first_root os (pre ++ d :: post) b l1 f l2
                  pre d post eq_refl Hpre Hd Hl2) as Hc.
    destruct (tooltip_entry os (pre ++ d :: post) b (l1 ++ f :: l2))
      as [n c] eqn:E.
    apply (f_equal num) in E. simpl in E, Hc. now subst. }
  split.
  - apply in_map_iff. exists b. split; [exact Hentry|exact Hb].
  - intros e He Hnum. apply in_map_iff in He. destruct He as [b' [<- Hb']].
    assert (b' = b) as ->.
    { unfold marker_blocks, blocks in *.
      apply filter_In in Hb. apply filter_In in Hb'.
      exact (layout_number_inj _ _ _ _ _ (proj1 Hb') (proj1 Hb) Hnum). }
    now rewrite Hentry.
Qed.

End ScanResults.

Lemma genToolTipInfo_result_witness :
  map (block_entry TwoIncludes.os TwoIncludes.info (caret TwoIncludes.doc 0)
         ["/proj"; "/lib"])
      (marker_blocks TwoIncludes.doc)
  = [ {| num := 0; content := Some "/proj/a.ly" |};
      {| num := 2; content := Some invalid_marker |} ].
Proof.
  symmetry.
  apply (fun H => proj1 (genToolTipInfo_result
           TwoIncludes.os TwoIncludes.info (caret TwoIncludes.doc 0) 5 _ H)).
  reflexivity.
Defined.

Lemma genToolTipInfo_returns_iff_witness :
  (exists fuel r,
      genToolTipInfo TwoIncludes.os TwoIncludes.info fuel
                     (caret TwoIncludes.doc 0) = Some r)
  /\ forall fuel,
       genToolTipInfo BareInclude.os BareInclude.info fuel
                      (caret BareInclude.doc 0) = None.
Proof.
  split.
  - apply (proj1 (genToolTipInfo_returns_iff
                    TwoIncludes.os TwoIncludes.info (caret TwoIncludes.doc 0))).
    intros b Hb. vm_compute in Hb.
    destruct Hb as [<-|[<-|[]]]; vm_compute; discriminate.
  - intros fuel.
    destruct (genToolTipInfo BareInclude.os BareInclude.info fuel
                             (caret BareInclude.doc 0)) as [r|] eqn:E;
      [|reflexivity].
    exfalso.
    apply (proj1 (proj1 (genToolTipInfo_returns_iff
                           BareInclude.os BareInclude.info
                           (caret BareInclude.doc 0)))
                 (ex_intro _ fuel (ex_intro _ r E))
                 {| position := 9; blockNumber := 1; text := "\include" |}).
    + vm_compute. auto.
    + reflexivity.
Defined.

Lemma genToolTipInfo_nums_witness :
  StronglySorted lt [0; 2]
  /\ nth_error (lines TwoIncludes.doc) 2 = Some (include_line "gone.ly").
Proof.
  destruct (genToolTipInfo_nums
              TwoIncludes.os TwoIncludes.info (caret TwoIncludes.doc 0) 3
              [ {| num := 0; content := Some "/proj/a.ly" |};
                {| num := 2; content := Some invalid_marker |} ] eq_refl)
    as [Hsorted _].
  split; [exact Hsorted|reflexivity].
Defined.

Lemma genToolTipInfo_contents_witness :
  exists c,
    Some "/proj/a.ly" = Some c
    /\ (c = invalid_marker \/ is_file TwoIncludes.os c = true).
Proof.
  destruct (genToolTipInfo_contents
              TwoIncludes.os TwoIncludes.info (caret TwoIncludes.doc 0) 3
              [ {| num := 0; content := Some "/proj/a.ly" |};
                {| num := 2; content := Some invalid_marker |} ] eq_refl
              {| num := 0; content := Some "/proj/a.ly" |}
              (or_introl eq_refl))
    as [c [Hc [Hm|[Hfile _]]]].
  - exists c. split; [exact Hc|now left].
  - exists c. split; [exact Hc|now right].
Defined.

(** ** What the resolvers at the cursor return *)

Section CursorResults.

Variable os : OS.
Variable info : Document -> DocInfo.

(** The name accepted by the inner loop is the candidate of the first
    directory that passes [os.access]. *)
Lemma access_dirs_accepted_split f path name :
  snd (access_dirs os f path) = Some name ->
  exists pre p post,
    path = pre ++ p :: post
    /\ (forall q, In q pre -> access_R_OK os (candidate os q f) = false)
    /\ access_R_OK os name = true
    /\ name = normpath os (join os p f).
Proof.
  induction path as [|p path IH]; simpl; [discriminate|].
  destruct (access_R_OK os (candidate os p f)) eqn:E; simpl.
  - intros [= <-]. exists [], p, path. repeat split; auto. intros q [].
  - intros H. destruct (IH H) as [pre [d [post [-> [Hpre [Ha Hn]]]]]].
    exists (p :: pre), d, post. repeat split; auto.
    intros q [<-|Hq]; [exact E|now apply Hpre].
Qed.

Lemma access_dirs_some f path :
  (exists p, In p path /\ access_R_OK os (candidate os p f) = true) ->
  exists name, snd (access_dirs os f path) = Some name.
Proof.
  intros [d [Hd Ha]]. induction path as [|p path IH]; [destruct Hd|].
  simpl. destruct (access_R_OK os (candidate os p f)) eqn:E; simpl.
  - eexists. reflexivity.
  - destruct Hd as [->|Hd]; [congruence|now apply IH].
Qed.

Lemma flat_map_ext_in {A B : Type} (f g : A -> list B) l :
  (forall a, In a l -> f a = g a) -> flat_map f l = flat_map g l.
Proof.
  induction l as [|a l IH]; simpl; intros H; [reflexivity|].
  rewrite (H a (or_introl eq_refl)), IH; [reflexivity|].
  intros b Hb. apply H. now right.
Qed.

(** X5.  With [existing=True], every path returned by
    [filenames_at_cursor] is, for one of the names at the cursor, the
    candidate of the first directory of the search path that passed
    [os.access]: it passed the test itself and every directory before it
    failed it for that name. *)
Theorem filenames_at_cursor_existing_first_accepted cursor name :
  In name (filenames_at_cursor os info cursor true) ->
  access_R_OK os name = true
  /\ exists f pre p post,
       In f (references_at_cursor os info cursor)
       /\ cursor_path os info cursor = pre ++ p :: post
       /\ (forall q, In q pre -> access_R_OK os (candidate os q f) = false)
       /\ name = normpath os (join os p f).
Proof.
  rewrite filenames_at_cursor_flat_map, in_flat_map.
  intros [f [Hf Hin]]. unfold contribution, filenames_for in Hin.
  destruct (snd (access_dirs os f _)) as [name'|] eqn:E; simpl in Hin;
    [|destruct Hin].
  destruct Hin as [<-|[]].
  apply access_dirs_accepted_split in E.
  destruct E as [pre [p [post [Hpath [Hpre [Ha Hn]]]]]].
  split; [exact Ha|]. exists f, pre, p, post. auto.
Qed.

Lemma contribution_length cursor f :
  List.length (contribution os info cursor false f) = 1
  /\ List.length (contribution os info cursor true f) <= 1.
Proof.
  unfold contribution, filenames_for.
  destruct (snd (access_dirs os f _)); simpl; lia.
Qed.

Lemma filenames_missing_length cursor :
  List.length (filenames_at_cursor os info cursor false)
  = List.length (references_at_cursor os info cursor).
Proof.
  rewrite filenames_at_cursor_flat_map.
  induction (references_at_cursor os info cursor) as [|f l IH]; simpl;
    [reflexivity|].
  rewrite length_app, IH.
  now rewrite (proj1 (contribution_length cursor f)).
Qed.


(** X7.  When every name at the cursor has a directory of the search path
    whose candidate passes [os.access], the flag [existing] makes no
    difference: both calls return the same list, one path for each name. *)
Theorem filenames_at_cursor_all_resolved cursor :
  (forall f, In f (references_at_cursor os info cursor) ->
             exists p, In p (cursor_path os info cursor)
                       /\ access_R_OK os (candidate os p f) = true) ->
  filenames_at_cursor os info cursor true
  = filenames_at_cursor os info cursor false
  /\ List.length (filenames_at_cursor os info cursor true)
     = List.length (references_at_cursor os info cursor).
Proof.
  intros Hall.
  assert (Heq : filenames_at_cursor os info cursor true
                = filenames_at_cursor os info cursor false).
  { rewrite !filenames_at_cursor_flat_map. apply flat_map_ext_in.
    intros f Hf. unfold contribution, filenames_for.
    destruct (access_dirs_some f _ (Hall f Hf)) as [name ->]. reflexivity. }
  split; [exact Heq|].
  rewrite Heq. apply filenames_missing_length.
Qed.

(** Without selection, the range handed to the lexer is that of the block
    of the cursor, so the names are those the lexer gives for that block. *)
Lemma references_at_caret cursor :
  hasSelection cursor = false ->
  references_at_cursor os info cursor
  = block_names info cursor (cursor_block cursor).
Proof.
  intros Hsel. unfold references_at_cursor, cursor_range. rewrite Hsel.
  cbn [negb]. rewrite andb_false_r.
  unfold hasSelection in Hsel. apply negb_false_iff, Nat.eqb_eq in Hsel.
  unfold selectionStart. rewrite Hsel, Nat.min_id.
  unfold block_names, cursor_block, block_length.
  now rewrite Nat.add_assoc.
Qed.

(** X8.  Without selection the result depends on the cursor only through
    the block it stands in: two cursors of one document standing in the
    same block get the same file names. *)
Theorem filenames_at_cursor_same_block cursor1 cursor2 existing :
  document cursor1 = document cursor2 ->
  hasSelection cursor1 = false ->
  hasSelection cursor2 = false ->
  cursor_block cursor1 = cursor_block cursor2 ->
  filenames_at_cursor os info cursor1 existing
  = filenames_at_cursor os info cursor2 existing.
Proof.
  intros Hdoc H1 H2 Hblock. unfold filenames_at_cursor.
  rewrite (references_at_caret cursor1 H1), (references_at_caret cursor2 H2).
  unfold cursor_directory, cursor_path, block_names.
  now rewrite Hdoc, Hblock.
Qed.

(** The calls of [os.access] for a name follow the search path from its
    start. *)
Lemma access_dirs_probes_prefix f path :
  exists k,
    k <= List.length path
    /\ fst (access_dirs os f path)
       = map (fun p => candidate os p f) (firstn k path).
Proof.
  induction path as [|p path [k [Hk IH]]]; simpl.
  - exists 0. split; [lia|reflexivity].
  - destruct (access_R_OK os (candidate os p f)).
    + exists 1. simpl. split; [lia|reflexivity].
    + exists (S k). simpl. split; [lia|now rewrite IH].
Qed.

(** X9.  [filenames_at_cursor] calls [os.access] at most once for each
    pair of a name at the cursor and a directory of the search path, and
    only on candidates of such pairs. *)
Theorem probes_at_cursor_bound cursor :
  List.length (probes_at_cursor os info cursor)
  <= List.length (references_at_cursor os info cursor)
     * List.length (cursor_path os info cursor)
  /\ forall name, In name (probes_at_cursor os info cursor) ->
       exists f p, In f (references_at_cursor os info cursor)
                   /\ In p (cursor_path os info cursor)
                   /\ name = normpath os (join os p f).
Proof.
  unfold probes_at_cursor. split.
  - induction (references_at_cursor os info cursor) as [|f l IH]; simpl; [lia|].
    rewrite length_app.
    destruct (access_dirs_probes_prefix f (cursor_path os info cursor))
      as [k [Hk ->]].
    rewrite length_map, length_firstn. lia.
  - intros name Hin. apply in_flat_map in Hin. destruct Hin as [f [Hf Hin]].
    destruct (access_dirs_probes_prefix f (cursor_path os info cursor))
      as [k [Hk Heq]].
    rewrite Heq in Hin. apply in_map_iff in Hin. destruct Hin as [p [<- Hp]].
    exists f, p. repeat split; auto.
    apply (In_nth_error) in Hp. destruct Hp as [i Hi].
    rewrite nth_error_firstn in Hi.
    destruct (i <? k); [|discriminate]. now apply nth_error_In in Hi.
Qed.

End CursorResults.

Lemma filenames_at_cursor_existing_first_accepted_witness :
  access_R_OK TwoRoots.os "/proj/a.ly" = true.
Proof.
  apply (filenames_at_cursor_existing_first_accepted
           TwoRoots.os TwoRoots.info (caret TwoRoots.doc 0) "/proj/a.ly").
  left. reflexivity.
Defined.

Lemma filenames_at_cursor_all_resolved_witness :
  filenames_at_cursor TwoRoots.os TwoRoots.info (caret TwoRoots.doc 0) true
  = filenames_at_cursor TwoRoots.os TwoRoots.info (caret TwoRoots.doc 0) false.
Proof.
  apply (filenames_at_cursor_all_resolved
           TwoRoots.os TwoRoots.info (caret TwoRoots.doc 0)).
  intros f [<-|[]]. exists "/proj". split; [now left|reflexivity].
Defined.

Lemma filenames_at_cursor_same_block_witness :
  filenames_at_cursor TwoRoots.os TwoRoots.info (caret TwoRoots.doc 0) true
  = filenames_at_cursor TwoRoots.os TwoRoots.info (caret TwoRoots.doc 12) true.
Proof.
  apply (filenames_at_cursor_same_block
           TwoRoots.os TwoRoots.info
           (caret TwoRoots.doc 0) (caret TwoRoots.doc 12) true);
    reflexivity.
Defined.

(** ** [includeTarget] and the tooltip of the same block *)

Section TargetResults.

Variable os : OS.
Variable info : Document -> DocInfo.

(** [includeTarget] in terms of the names of the block of the cursor. *)
Lemma includeTarget_block_names cursor :
  includeTarget os info cursor
  = if PyStr.py_not (block_names info cursor (cursor_block cursor))
    then EmptyStr
    else
      Targets
        (flat_map
           (fun f =>
              map (fun p => candidate os p f)
                  (filter (fun p => is_file os (candidate os p f))
                          (search_path os (info (document cursor))
                                       (document cursor))))
           (block_names info cursor (cursor_block cursor))).
Proof.
  unfold includeTarget, block_names, block_length.
  rewrite Nat.add_assoc.
  destruct (PyStr.py_not (range_args _ _ _)); [reflexivity|].
  now rewrite includeTarget_fold.
Qed.

(** X10.  Every path in the list returned by [includeTarget] was found to
    exist and not to be a directory, and is the normalized join of a name
    the lexer gave for the block of the cursor against a directory of the
    search path. *)
Theorem includeTarget_targets_are_files cursor targets t :
  includeTarget os info cursor = Targets targets ->
  In t targets ->
  is_file os t = true
  /\ exists f p,
       In f (block_names info cursor (cursor_block cursor))
       /\ In p (search_path os (info (document cursor)) (document cursor))
       /\ t = normpath os (join os p f).
Proof.
  rewrite includeTarget_block_names.
  destruct (PyStr.py_not (block_names info cursor (cursor_block cursor)));
    [discriminate|].
  intros [= <-] Hin. apply in_flat_map in Hin. destruct Hin as [f [Hf Hin]].
  apply in_map_iff in Hin. destruct Hin as [p [<- Hp]].
  apply filter_In in Hp. destruct Hp as [Hp Hfile].
  split; [exact Hfile|]. exists f, p. auto.
Qed.

Lemma filter_none {A : Type} (keep : A -> bool) l :
  (forall a, In a l -> keep a = false) -> filter keep l = [].
Proof.
  induction l as [|a l IH]; simpl; intros H; [reflexivity|].
  rewrite (H a (or_introl eq_refl)). apply IH. intros b Hb. apply H. now right.
Qed.

Lemma flat_map_nil {A B : Type} (f : A -> list B) l :
  (forall a, In a l -> f a = []) -> flat_map f l = [].
Proof.
  induction l as [|a l IH]; simpl; intros H; [reflexivity|].
  rewrite (H a (or_introl eq_refl)). apply IH. intros b Hb. apply H. now right.
Qed.

(** X11.  [includeTarget] returns the empty string exactly when the lexer
    gives no name for the block of the cursor.  When there are names and
    none of them is an existing file under any directory of the search
    path, it returns the empty list, not the empty string. *)
Theorem includeTarget_nothing_found cursor :
  (includeTarget os info cursor = EmptyStr
   <-> block_names info cursor (cursor_block cursor) = [])
  /\ (block_names info cursor (cursor_block cursor) <> [] ->
      (forall f p,
          In f (block_names info cursor (cursor_block cursor)) ->
          In p (search_path os (info (document cursor)) (document cursor)) ->
          is_file os (candidate os p f) = false) ->
      includeTarget os info cursor = Targets []).
Proof.
  rewrite includeTarget_block_names.
  destruct (PyStr.py_not (block_names info cursor (cursor_block cursor))) eqn:E.
  - destruct (block_names info cursor (cursor_block cursor));
      [|discriminate].
    split; [tauto|congruence].
  - split.
    + split; [discriminate|].
      intros H. rewrite H in E. discriminate.
    + intros _ Hnone. f_equal. apply flat_map_nil. intros f Hf.
      rewrite filter_none; [reflexivity|].
      intros p Hp. now apply Hnone.
Qed.

Lemma last_in_nonempty {A : Type} (l : list A) (d : A) :
  l <> [] -> In (last l d) l.
Proof.
  destruct l as [|a l] using rev_ind; [congruence|].
  intros _. rewrite last_last. apply in_or_app. right. now left.
Qed.

(** X12.  When some name of the block of the cursor resolves, the content
    that the document scan gives to the entry of that block is one of the
    paths in the list returned by [includeTarget] at that cursor. *)
Theorem tooltip_content_among_targets cursor :
  let path := search_path os (info (document cursor)) (document cursor) in
  let block := cursor_block cursor in
  resolutions os path (block_names info cursor block) <> [] ->
  exists targets name,
    includeTarget os info cursor = Targets targets
    /\ content (block_entry os info cursor path block) = Some name
    /\ In name targets.
Proof.
  intros path block Hres.
  rewrite includeTarget_block_names. unfold block_entry.
  rewrite tooltip_entry_content. fold block. fold path.
  pose proof (last_in_nonempty _ invalid_marker Hres) as Hin.
  apply resolutions_in in Hin. destruct Hin as [f [Hf Hfirst]].
  apply first_file_some in Hfirst. destruct Hfirst as [Hfile [p [Hp Hc]]].
  destruct (PyStr.py_not (block_names info cursor block)) eqn:E.
  { destruct (block_names info cursor block); [destruct Hf|discriminate]. }
  eexists. eexists. split; [reflexivity|]. split; [reflexivity|].
  apply in_flat_map. exists f. split; [exact Hf|].
  apply in_map_iff. exists p. split; [symmetry; exact Hc|].
  apply filter_In. split; [exact Hp|].
  unfold candidate. rewrite <- Hc. exact Hfile.
Qed.

End TargetResults.

Lemma includeTarget_targets_are_files_witness :
  is_file TwoRoots.os "/lib/a.ly" = true.
Proof.
  apply (includeTarget_targets_are_files
           TwoRoots.os TwoRoots.info (caret TwoRoots.doc 0)
           ["/proj/a.ly"; "/lib/a.ly"] "/lib/a.ly" eq_refl).
  right. left. reflexivity.
Defined.

Lemma includeTarget_nothing_found_witness :
  includeTarget IncludesDirectory.os IncludesDirectory.info
                (caret IncludesDirectory.doc 0) = Targets []
  /\ includeTarget PlainSelection.os PlainSelection.info PlainSelection.cursor
     = EmptyStr.
Proof.
  split.
  - apply (proj2 (includeTarget_nothing_found
                    IncludesDirectory.os IncludesDirectory.info
                    (caret IncludesDirectory.doc 0))).
    + discriminate.
    + intros f p [<-|[]] [<-|[]]. reflexivity.
  - apply (proj1 (includeTarget_nothing_found
                    PlainSelection.os PlainSelection.info PlainSelection.cursor)).
    reflexivity.
Defined.

Lemma tooltip_content_among_targets_witness :
  exists targets name,
    includeTarget TwoRoots.os TwoRoots.info (caret TwoRoots.doc 0)
    = Targets targets
    /\ content (block_entry TwoRoots.os TwoRoots.info (caret TwoRoots.doc 0)
                            ["/proj"; "/lib"]
                            (cursor_block (caret TwoRoots.doc 0)))
       = Some name
    /\ In name targets.
Proof.
  apply (tooltip_content_among_targets
           TwoRoots.os TwoRoots.info (caret TwoRoots.doc 0)).
  discriminate.
Defined.

(** ** [open_targets] called with both its arguments *)

Lemma last_cons_default {A : Type} (l : list A) (a d : A) :
  last (a :: l) d = last l a.
Proof.
  revert a d. induction l as [|b l IH]; intros a d; [reflexivity|].
  change (last (a :: b :: l) d) with (last (b :: l) d).
  now rewrite (IH b d), (IH b a).
Qed.

(** The loop opens every target in turn; [d] ends as the result of the
    last call of [openUrl]. *)
Lemma open_each_spec w targets d :
  open_each w targets d
  = (last (map (openUrl w) targets) d, map OpenUrl targets).
Proof.
  revert d. induction targets as [|t rest IH]; intros d; [reflexivity|].
  cbn [open_each]. rewrite IH. cbn [fst snd map].
  now rewrite last_cons_default.
Qed.

(** X13.  Called with a window and a non-empty list of paths,
    [open_targets] asks the window to open every path, in order.  Only the
    result of the last [openUrl] decides what follows: when it is truthy
    that document is given the focus and [True] is returned; when it is
    not, nothing is focused and [None] is returned, whatever the earlier
    calls returned.  On the empty list nothing is asked and [None] is
    returned. *)
Theorem open_targets_opens_all w init t :
  open_targets [PyWindow w; PyStrList (init ++ [t])]
  = match openUrl w t with
    | Some d =>
        (Returned PyTrue,
         map OpenUrl (init ++ [t]) ++ [SetCurrentDocument d])
    | None => (Returned PyNone, map OpenUrl (init ++ [t]))
    end
  /\ open_targets [PyWindow w; PyStrList []] = (Returned PyNone, []).
Proof.
  split; [|reflexivity].
  unfold open_targets, open_targets_body.
  destruct (init ++ [t]) as [|t0 rest] eqn:E.
  - destruct init; discriminate.
  - rewrite open_each_spec, <- E. cbn [fst snd].
    rewrite map_app. cbn [map]. rewrite last_last.
    destruct (openUrl w t); reflexivity.
Qed.

Lemma genToolTipInfo_first_root_witness :
  In {| num := 0; content := Some "/proj/a.ly" |}
     [ {| num := 0; content := Some "/proj/a.ly" |} ].
Proof.
  apply (genToolTipInfo_first_root
           TwoRoots.os TwoRoots.info (caret TwoRoots.doc 0)
           {| position := 0; blockNumber := 0; text := include_line "a.ly" |}
           [] "a.ly" [] [] "/proj" ["/lib"] 1
           [ {| num := 0; content := Some "/proj/a.ly" |} ]).
  - reflexivity.
  - left. reflexivity.
  - reflexivity.
  - reflexivity.
  - intros p [].
  - reflexivity.
  - intros g p [].
Defined.

(** ** The entries lost behind a block without names *)

(** Once the loop stands on a located block without names, every further
    turn is reached and leaves the cursor and the list as they are. *)
Lemma scan_turns_nameless os info cursor path block n :
  forall st,
    pointCursor st = Some block ->
    block_names info cursor block = [] ->
    exists st',
      scan_turns os info n cursor path st = Some st'
      /\ pointCursor st' = Some block
      /\ toolTipInfo st' = toolTipInfo st.
Proof.
  induction n as [|n IH]; intros st Hpc Hnames; simpl.
  - exists st. auto.
  - rewrite (scan_step_nameless os info cursor path st block Hpc Hnames).
    destruct (IH {| startIndex := position block + block_length block;
                    pointCursor := Some block;
                    toolTipInfo := toolTipInfo st |} eq_refl Hnames)
      as [st' [Hrun [Hpc' Hinfo]]].
    exists st'. auto.
Qed.

(** C7 at a failing input.  The third line of the document is an
    occurrence of the marker whose one name resolves to [/proj/a.ly], so it
    should yield one entry with that content.  It yields none: the scan
    stays on the bare [\include] of the second line (the [continue] of line
    112, as for C1), so the list is empty after any number of turns and the
    function never returns it. *)
Theorem genToolTipInfo_loses_entry_behind_bare_include :
  let cursor := caret BareInclude.doc 0 in
  let third :=
    {| position := 18; blockNumber := 2; text := include_line "a.ly" |} in
  In third (marker_blocks BareInclude.doc)
  /\ block_names BareInclude.info cursor third = ["a.ly"]
  /\ first_file BareInclude.os ["/proj"] "a.ly" = Some "/proj/a.ly"
  /\ (forall n, exists st,
         scan_turns BareInclude.os BareInclude.info n cursor ["/proj"]
                    (scan_init cursor) = Some st
         /\ toolTipInfo st = [])
  /\ (forall fuel,
         genToolTipInfo BareInclude.os BareInclude.info fuel cursor = None).
Proof.
  intros cursor third.
  split; [right; left; reflexivity|].
  split; [reflexivity|]. split; [reflexivity|]. split.
  - intros n.
    destruct (scan_turns_nameless
                BareInclude.os BareInclude.info cursor ["/proj"]
                {| position := 9; blockNumber := 1; text := "\include" |}
                n (scan_init cursor) eq_refl eq_refl)
      as [st [Hrun [_ Hinfo]]].
    exists st. split; [exact Hrun|exact Hinfo].
  - apply (genToolTipInfo_nameless_diverges
             BareInclude.os BareInclude.info cursor
             {| position := 9; blockNumber := 1; text := "\include" |});
      reflexivity.
Qed.

(** ** The exceptions of [filenames_at_cursor] *)

Section Raising.

Variable os : OS.
Variable info : Document -> DocInfo.




End Raising.


